(** * EmailSystem: the conversation scheduler and batch sender of
    [src/app/page.tsx], embedded in Rocq.

    JavaScript numbers used as delays and times are modelled as rationals
    ([Q]); a [Date] is modelled by its time value: a whole number of
    milliseconds, or NaN for an Invalid Date.  The
    external effects of the handlers (the clock, [Math.random], the
    [/api/send-email] and [/api/generate-message] requests) are oracles
    indexed by the position of the message they are taken for. *)

From Stdlib Require Import List String Ascii Bool ZArith QArith Qround Lia.
From Stdlib Require Import DecimalString DecimalNat.
Import ListNotations.

(** ** JavaScript dates *)

(** A [Date] object by its time value: a whole number of milliseconds, or
    NaN (an Invalid Date). *)
Inductive JSDate :=
| DateAt (ms : Z)
| InvalidDate.

(** The largest time value, 8.64e15 ms. *)
Definition maxTimeValue : Z := 8640000000000000.

(** The range test of [TimeClip]: [abs(v) <= 8.64e15]. *)
Definition date_in_range (v : Q) : bool :=
  Qle_bool (- inject_Z maxTimeValue)%Q v && Qle_bool v (inject_Z maxTimeValue).

(** [ToIntegerOrInfinity] on a finite number: truncation toward zero. *)
Definition trunc_Q (v : Q) : Z :=
  if Qle_bool 0 v then Qfloor v else (- Qfloor (- v)%Q)%Z.

(** [new Date(v)] for a finite number [v]: the time value [TimeClip(v)]. *)
Definition newDate (v : Q) : JSDate :=
  if date_in_range v then DateAt (trunc_Q v) else InvalidDate.

(** ** Data model (the TypeScript interfaces of page.tsx) *)

Record EmailConfig := mkEmailConfig {
  smtpHost : string;
  smtpPort : Z;
  smtpUser : string;
  smtpPassword : string;
  smtpSecure : option bool
}.

Record Account := mkAccount {
  acc_id : string;
  acc_name : string;
  acc_email : string;
  personality : option string;
  emailConfig : option EmailConfig
}.

Record Message := mkMessage {
  msg_id : string;
  accountId : string;
  accountName : string;
  accountEmail : string;
  content : string;
  timestamp : Z;
  sent : option bool;
  scheduledSendTime : option JSDate;
  emailMessageId : option string
}.

Record Conversation := mkConversation {
  conv_id : string;
  conv_name : string;
  selectedAccount : option Account;
  otherAccounts : list Account;
  messages : list Message;
  prompt : string;
  minDelayMinutes : Q;
  maxDelayMinutes : Q;
  conversationLength : Z;
  emailSubject : option string
}.

(** Object spreads [{ ...m, field: v }]. *)
Definition set_scheduledSendTime (m : Message) (t : option JSDate) : Message :=
  mkMessage (msg_id m) (accountId m) (accountName m) (accountEmail m)
    (content m) (timestamp m) (sent m) t (emailMessageId m).

Definition set_sent_result (m : Message) (mid : option string) : Message :=
  mkMessage (msg_id m) (accountId m) (accountName m) (accountEmail m)
    (content m) (timestamp m) (Some true) None mid.

Definition set_messages (c : Conversation) (ms : list Message) : Conversation :=
  mkConversation (conv_id c) (conv_name c) (selectedAccount c)
    (otherAccounts c) ms (prompt c) (minDelayMinutes c) (maxDelayMinutes c)
    (conversationLength c) (emailSubject c).

Definition set_messages_prompt (c : Conversation) (ms : list Message)
  (p : string) : Conversation :=
  mkConversation (conv_id c) (conv_name c) (selectedAccount c)
    (otherAccounts c) ms p (minDelayMinutes c) (maxDelayMinutes c)
    (conversationLength c) (emailSubject c).

Definition set_delays (c : Conversation) (mn mx : Q) : Conversation :=
  mkConversation (conv_id c) (conv_name c) (selectedAccount c)
    (otherAccounts c) (messages c) (prompt c) mn mx
    (conversationLength c) (emailSubject c).

(** [[conv.selectedAccount, ...conv.otherAccounts].filter(Boolean)] *)
Definition option_to_list {A} (o : option A) : list A :=
  match o with Some a => [a] | None => [] end.

(** [conv.emailSubject || `Conversation: ${conv.name}`]: the empty
    string is falsy. *)
Definition conversationSubject (c : Conversation) : string :=
  match emailSubject c with
  | Some s => if String.eqb s "" then ("Conversation: " ++ conv_name c)%string else s
  | None => ("Conversation: " ++ conv_name c)%string
  end.

(** ** Scheduling pass of [handleSendAllMessages] *)

(** [Math.floor(Math.random() * (maxDelayMs - minDelayMs + 1)) + minDelayMs],
    with [r] the value returned by [Math.random()]. *)
Definition randomDelay (minDelayMs maxDelayMs r : Q) : Q :=
  inject_Z (Qfloor (r * (maxDelayMs - minDelayMs + 1))) + minDelayMs.

(** [conv.messages.map((message, i) => ...)] with the closure variable
    [cumulativeDelay] threaded through.  [rnd i] is the [Math.random()]
    value and [now i] the clock reading ([new Date()] for [i = 0],
    [Date.now()] otherwise) taken while mapping message [i]; message [i > 0]
    gets [new Date(Date.now() + cumulativeDelay)]. *)
Fixpoint schedule_from (conv : Conversation) (rnd : nat -> Q) (now : nat -> Z)
  (i : nat) (cumulativeDelay : Q) (ms : list Message) : list Message :=
  match ms with
  | [] => []
  | message :: rest =>
      match i with
      | O =>
          set_scheduledSendTime message (Some (newDate (inject_Z (now O))))
            :: schedule_from conv rnd now 1 cumulativeDelay rest
      | S _ =>
          let minDelayMs := minDelayMinutes conv * 60 * 1000 in
          let maxDelayMs := maxDelayMinutes conv * 60 * 1000 in
          let cum := cumulativeDelay + randomDelay minDelayMs maxDelayMs (rnd i) in
          set_scheduledSendTime message (Some (newDate (inject_Z (now i) + cum)))
            :: schedule_from conv rnd now (S i) cum rest
      end
  end.

Definition messagesWithSchedule (conv : Conversation) (rnd : nat -> Q)
  (now : nat -> Z) : list Message :=
  schedule_from conv rnd now 0 0 (messages conv).

(** ** Per-message writes of the send loop

    Each is the updater passed to [updateActiveConversation]; the store is
    the active conversation (the map over the conversation list applies
    the updater to it and leaves the other conversations as they are). *)

Definition markSent (id : string) (mid : option string) (c : Conversation)
  : Conversation :=
  set_messages c (map (fun m => if String.eqb (msg_id m) id
                                then set_sent_result m mid else m)
                      (messages c)).

Definition markFailed (id : string) (c : Conversation) : Conversation :=
  set_messages c (map (fun m => if String.eqb (msg_id m) id
                                then set_scheduledSendTime m None else m)
                      (messages c)).

(** ** Send loop of [handleSendAllMessages] *)

(** Outcome of [sendEmailInternal]: the [messageId] of the response, or a
    thrown error (network failure or a response that is not ok). *)
Inductive SendResult :=
| SendOk (messageId : option string)
| SendErr.

(** [sendEmailInternal(message, senderAccount, recipients, subject,
    conversationId, previousMessageId)] for the message at index [i]. *)
Definition Dispatch : Type :=
  nat -> Message -> Account -> list Account -> string -> string ->
  option string -> SendResult.

(** What the loop did with the message at index [i]. *)
Inductive Event :=
| EvSkipAccount (i : nat)
| EvSkipNoRecipients (i : nat)
| EvDispatch (i : nat) (id : string) (previousMessageId : option string)
             (result : SendResult).

Record BatchState := mkBatch {
  bs_store : Conversation;
  sentCount : nat;
  skippedAccounts : list string;
  lastMessageId : option string;
  bs_log : list Event
}.

Definition add_skipped (name : string) (skipped : list string) : list string :=
  if existsb (String.eqb name) skipped then skipped else skipped ++ [name].

(** One iteration of [for (let i = 0; i < messagesWithSchedule.length; i++)].
    The wait on [setTimeout] changes no state and is left out. *)
Definition send_step (dispatch : Dispatch) (conv : Conversation)
  (allParticipants : list Account) (i : nat) (message : Message)
  (s : BatchState) : BatchState :=
  let skip :=
    mkBatch (bs_store s) (sentCount s)
      (add_skipped (accountName message) (skippedAccounts s))
      (lastMessageId s) (bs_log s ++ [EvSkipAccount i]) in
  match find (fun acc => String.eqb (acc_id acc) (accountId message))
             allParticipants with
  | None => skip
  | Some senderAccount =>
      match emailConfig senderAccount with
      | None => skip
      | Some _ =>
          let recipients :=
            filter (fun acc => negb (String.eqb (acc_id acc) (accountId message)))
                   allParticipants in
          match recipients with
          | [] =>
              mkBatch (bs_store s) (sentCount s) (skippedAccounts s)
                (lastMessageId s) (bs_log s ++ [EvSkipNoRecipients i])
          | _ :: _ =>
              match dispatch i message senderAccount recipients
                      (conversationSubject conv) (conv_id conv) (lastMessageId s) with
              | SendOk mid =>
                  mkBatch (markSent (msg_id message) mid (bs_store s))
                    (S (sentCount s)) (skippedAccounts s) mid
                    (bs_log s ++ [EvDispatch i (msg_id message) (lastMessageId s)
                                              (SendOk mid)])
              | SendErr =>
                  mkBatch (markFailed (msg_id message) (bs_store s))
                    (sentCount s) (skippedAccounts s) (lastMessageId s)
                    (bs_log s ++ [EvDispatch i (msg_id message) (lastMessageId s)
                                              SendErr])
              end
          end
      end
  end.

Fixpoint send_loop (dispatch : Dispatch) (conv : Conversation)
  (allParticipants : list Account) (i : nat) (ms : list Message)
  (s : BatchState) : BatchState :=
  match ms with
  | [] => s
  | message :: rest =>
      send_loop dispatch conv allParticipants (S i) rest
        (send_step dispatch conv allParticipants i message s)
  end.

Record BatchResult := mkBatchResult {
  br_sentCount : nat;
  br_totalCount : nat;
  skippedAccountNames : list string
}.

Inductive SendAllOutcome :=
| NoConversation
| NoMessages
| BatchDone (store : Conversation) (result : BatchResult) (log : list Event).

(** [const allParticipants = [conv.selectedAccount, ...conv.otherAccounts]
    .filter(Boolean)] *)
Definition allParticipants (conv : Conversation) : list Account :=
  option_to_list (selectedAccount conv) ++ otherAccounts conv.

(** [handleSendAllMessages] on the active conversation [active]. *)
Definition handleSendAllMessages (active : option Conversation)
  (rnd : nat -> Q) (now : nat -> Z) (dispatch : Dispatch) : SendAllOutcome :=
  match active with
  | None => NoConversation
  | Some conv =>
      match messages conv with
      | [] => NoMessages
      | _ :: _ =>
          let mws := messagesWithSchedule conv rnd now in
          let store := set_messages conv mws in
          let s := send_loop dispatch conv (allParticipants conv) 0 mws
                     (mkBatch store 0 [] None []) in
          BatchDone (bs_store s)
            (mkBatchResult (sentCount s) (List.length (messages conv))
               (skippedAccounts s))
            (bs_log s)
      end
  end.

(** ** Whitespace and number printing *)

(** The ASCII characters [String.prototype.trim] removes. *)
Definition is_js_space (c : ascii) : bool :=
  match nat_of_ascii c with
  | 9%nat | 10%nat | 11%nat | 12%nat | 13%nat | 32%nat => true
  | _ => false
  end.

Fixpoint trim_start (s : string) : string :=
  match s with
  | EmptyString => EmptyString
  | String c rest => if is_js_space c then trim_start rest else s
  end.

Definition str_rev (s : string) : string :=
  string_of_list_ascii (rev (list_ascii_of_string s)).

(** [s.trim()] *)
Definition trim (s : string) : string :=
  str_rev (trim_start (str_rev (trim_start s))).

(** [Date.now().toString()] and the decimal text of a loop index. *)
Definition string_of_Z (z : Z) : string := NilZero.string_of_int (Z.to_int z).
Definition string_of_nat (n : nat) : string := NilZero.string_of_uint (Nat.to_uint n).

(** ** What the page shows for a batch *)

(** [if (skippedAccounts.length > 0) successMessage += ...] *)
Definition skippedSuffix (names : list string) : string :=
  match names with
  | [] => EmptyString
  | _ :: _ =>
      (". Skipped " ++ string_of_nat (List.length names) ++
       " account(s) without email config: " ++ String.concat ", " names ++
       ". Please configure email settings for these accounts.")%string
  end.

(** The success message set at the end of [handleSendAllMessages]:
    [`Sent ${sentCount} out of ${conv.messages.length} messages`] and the
    skipped accounts. *)
Definition batchSuccessMessage (r : BatchResult) : string :=
  (("Sent " ++ string_of_nat (br_sentCount r) ++ " out of " ++
    string_of_nat (br_totalCount r) ++ " messages") ++
   skippedSuffix (skippedAccountNames r))%string.

(** The label of the Send All button of a conversation:
    [Sending...] while [sendingEmail], otherwise
    [Send All Messages ({conv.messages.length})]. *)
Definition sendAllButtonLabel (sendingEmail : bool) (conv : Conversation) : string :=
  if sendingEmail then "Sending..."%string
  else ("Send All Messages (" ++ string_of_nat (List.length (messages conv)) ++ ")")%string.

(** ** Full-conversation generation ([handleGenerateFullConversation]) *)

(** The JSON answer of [/api/generate-message]: [response.ok],
    [data.message] and [data.error].  A request that throws is a
    response that is not ok. *)
Record GenResponse := mkGenResponse {
  gen_ok : bool;
  gen_message : option string;
  gen_error : option string
}.

(** The request for iteration [i]: [account], [otherAccounts],
    [conversationHistory] and [prompt]. *)
Definition Generate : Type :=
  nat -> Account -> list Account -> list Message -> string -> GenResponse.

(** What was sent with each request. *)
Record GenCall := mkGenCall {
  call_sender : Account;
  call_others : list Account;
  call_history : list Message
}.

(** [array.filter((_, idx) => f(idx))] *)
Fixpoint filter_idx {A} (f : nat -> bool) (l : list A) (idx : nat) : list A :=
  match l with
  | [] => []
  | x :: rest => if f idx then x :: filter_idx f rest (S idx)
                 else filter_idx f rest (S idx)
  end.

Definition error_or (e : option string) (dflt : string) : string :=
  match e with
  | Some s => if String.eqb s "" then dflt else s
  | None => dflt
  end.

Definition empty_message_error : string :=
  "Received empty message from API. Please try again.".

(** [for (let i = 0; i < conv.conversationLength; i++)]: [fuel] counts the
    iterations left; the result is the error that ended the loop (if
    any), the [newMessages] array and the requests made. *)
Fixpoint gen_loop (generate : Generate) (clock : nat -> Z) (conv : Conversation)
  (allParticipants : list Account) (i fuel : nat)
  (currentHistory newMessages : list Message) (calls : list GenCall)
  : option string * list Message * list GenCall :=
  match fuel with
  | O => (None, newMessages, calls)
  | S fuel' =>
      let senderIndex := Nat.modulo i (List.length allParticipants) in
      match nth_error allParticipants senderIndex with
      | None => (Some "TypeError"%string, newMessages, calls)
      | Some sender =>
          let otherParticipants :=
            filter_idx (fun idx => negb (Nat.eqb idx senderIndex)) allParticipants 0 in
          let calls' := calls ++ [mkGenCall sender otherParticipants currentHistory] in
          let data := generate i sender otherParticipants currentHistory (prompt conv) in
          if negb (gen_ok data) then
            (Some (error_or (gen_error data) "Failed to generate message"),
             newMessages, calls')
          else
            match gen_message data with
            | None => (Some empty_message_error, newMessages, calls')
            | Some text =>
                if String.eqb (trim text) "" then
                  (Some empty_message_error, newMessages, calls')
                else
                  let newMessage :=
                    mkMessage (string_of_Z (clock i) ++ string_of_nat i)
                      (acc_id sender) (acc_name sender) (acc_email sender)
                      text (clock i) None None None in
                  gen_loop generate clock conv allParticipants (S i) fuel'
                    (currentHistory ++ [newMessage]) (newMessages ++ [newMessage])
                    calls'
            end
      end
  end.

Inductive GenOutcome :=
| GenNoConversation
| GenNoSender
| GenNoParticipants
| GenRan (store : Conversation) (error : option string) (calls : list GenCall).

(** [handleGenerateFullConversation] on the active conversation; [clock i]
    is the reading of [Date.now()] in iteration [i]. *)
Definition handleGenerateFullConversation (active : option Conversation)
  (generate : Generate) (clock : nat -> Z) : GenOutcome :=
  match active with
  | None => GenNoConversation
  | Some conv =>
      match selectedAccount conv with
      | None => GenNoSender
      | Some selected =>
          match otherAccounts conv with
          | [] => GenNoParticipants
          | _ :: _ =>
              let allParticipants := selected :: otherAccounts conv in
              match gen_loop generate clock conv allParticipants 0
                      (Z.to_nat (conversationLength conv)) (messages conv) [] [] with
              | (None, newMessages, calls) =>
                  GenRan (set_messages_prompt conv (messages conv ++ newMessages) "")
                    None calls
              | (Some err, _, calls) => GenRan conv (Some err) calls
              end
          end
      end
  end.

(** ** Delay bounds: creation, storage migration and the two edits *)

(** [handleCreateConversationWithName], with [now] the [Date.now()] value. *)
Definition handleCreateConversationWithName (newConversationName : string)
  (now : Z) : option Conversation :=
  if String.eqb (trim newConversationName) "" then None
  else Some (mkConversation (string_of_Z now) (trim newConversationName) None []
               [] "" 1 5 6
               (Some ("Conversation: " ++ trim newConversationName)%string)).

(** A conversation as read back by [JSON.parse] from localStorage: the
    rest of its fields, and the delay fields, absent ([None]) when the
    stored object has none. *)
Record StoredConversation := mkStored {
  st_base : Conversation;
  st_minDelayMinutes : option Q;
  st_maxDelayMinutes : option Q;
  st_delayBetweenMessages : option Q
}.

(** The migration of the [useState] initialiser. *)
Definition migrateConversation (s : StoredConversation) : Conversation :=
  let minDelayMinutes := match st_minDelayMinutes s with Some v => v | None => 1 end in
  let maxDelayMinutes := match st_maxDelayMinutes s with Some v => v | None => 5 end in
  match st_delayBetweenMessages s with
  | Some d => set_delays (st_base s) (d / 60) (d / 60)
  | None => set_delays (st_base s) minDelayMinutes maxDelayMinutes
  end.

(** [JSON.stringify] of a conversation; [legacy] is a [delayBetweenMessages]
    field the object may still carry (the spread [...conv] of the
    migration keeps it). *)
Definition persist (c : Conversation) (legacy : option Q) : StoredConversation :=
  mkStored c (Some (minDelayMinutes c)) (Some (maxDelayMinutes c)) legacy.

(** [a < b] on numbers. *)
Definition Qlt_bool (a b : Q) : bool := negb (Qle_bool b a).

(** [parseFloat(e.target.value) || 0], with [None] for [NaN]. *)
Definition parse_delay (parsed : option Q) : Q :=
  match parsed with Some v => v | None => 0 end.

(** The [onChange] updater of the minimum delay input. *)
Definition editMinDelay (parsed : option Q) (c : Conversation) : Conversation :=
  let min := parse_delay parsed in
  set_delays c min (if Qlt_bool (maxDelayMinutes c) min then min else maxDelayMinutes c).

(** The [onChange] updater of the maximum delay input. *)
Definition editMaxDelay (parsed : option Q) (c : Conversation) : Conversation :=
  let max := parse_delay parsed in
  set_delays c (if Qlt_bool max (minDelayMinutes c) then max else minDelayMinutes c) max.

(** Conversations the application can hold: created, loaded from storage
    (a record it persisted, or a legacy record without the two fields),
    edited through the delay inputs, or changed by another handler that
    leaves both delay fields as they are. *)
Inductive reachable : Conversation -> Prop :=
| reach_create name now c :
    handleCreateConversationWithName name now = Some c -> reachable c
| reach_load c legacy :
    reachable c -> reachable (migrateConversation (persist c legacy))
| reach_load_legacy base legacy :
    reachable (migrateConversation (mkStored base None None legacy))
| reach_edit_min parsed c : reachable c -> reachable (editMinDelay parsed c)
| reach_edit_max parsed c : reachable c -> reachable (editMaxDelay parsed c)
| reach_other c c' :
    reachable c -> minDelayMinutes c' = minDelayMinutes c ->
    maxDelayMinutes c' = maxDelayMinutes c -> reachable c'.

(** ** Views of one loop iteration

    [step_event] names what an iteration of the send loop does with a
    message; the lemma [send_step_eq] below shows that [send_step] is the
    state change these functions describe. *)

Definition step_event (dispatch : Dispatch) (conv : Conversation)
  (allParticipants : list Account) (i : nat) (message : Message)
  (last : option string) : Event :=
  match find (fun acc => String.eqb (acc_id acc) (accountId message))
             allParticipants with
  | None => EvSkipAccount i
  | Some senderAccount =>
      match emailConfig senderAccount with
      | None => EvSkipAccount i
      | Some _ =>
          let recipients :=
            filter (fun acc => negb (String.eqb (acc_id acc) (accountId message)))
                   allParticipants in
          match recipients with
          | [] => EvSkipNoRecipients i
          | _ :: _ =>
              EvDispatch i (msg_id message) last
                (dispatch i message senderAccount recipients
                   (conversationSubject conv) (conv_id conv) last)
          end
      end
  end.

Definition ev_index (e : Event) : nat :=
  match e with
  | EvSkipAccount i | EvSkipNoRecipients i | EvDispatch i _ _ _ => i
  end.

Definition ev_id (e : Event) : option string :=
  match e with EvDispatch _ id _ _ => Some id | _ => None end.

Definition is_sent_event (e : Event) : bool :=
  match e with EvDispatch _ _ _ (SendOk _) => true | _ => false end.

Definition new_last (e : Event) (last : option string) : option string :=
  match e with EvDispatch _ _ _ (SendOk mid) => mid | _ => last end.

Definition event_write (e : Event) (c : Conversation) : Conversation :=
  match e with
  | EvDispatch _ id _ (SendOk mid) => markSent id mid c
  | EvDispatch _ id _ SendErr => markFailed id c
  | _ => c
  end.

Definition msg_write (e : Event) (m : Message) : Message :=
  match e with
  | EvDispatch _ id _ (SendOk mid) =>
      if String.eqb (msg_id m) id then set_sent_result m mid else m
  | EvDispatch _ id _ SendErr =>
      if String.eqb (msg_id m) id then set_scheduledSendTime m None else m
  | _ => m
  end.

Definition event_skip (message : Message) (e : Event) (skipped : list string)
  : list string :=
  match e with
  | EvSkipAccount _ => add_skipped (accountName message) skipped
  | _ => skipped
  end.

Fixpoint loop_events (dispatch : Dispatch) (conv : Conversation)
  (allParticipants : list Account) (i : nat) (ms : list Message)
  (last : option string) : list Event :=
  match ms with
  | [] => []
  | message :: rest =>
      let e := step_event dispatch conv allParticipants i message last in
      e :: loop_events dispatch conv allParticipants (S i) rest (new_last e last)
  end.

(** The sender of [message] is a participant with an [emailConfig]. *)
Definition sender_configured (allParticipants : list Account) (message : Message)
  : bool :=
  match find (fun acc => String.eqb (acc_id acc) (accountId message))
             allParticipants with
  | Some a => match emailConfig a with Some _ => true | None => false end
  | None => false
  end.

Definition has_recipients (allParticipants : list Account) (message : Message)
  : bool :=
  match filter (fun acc => negb (String.eqb (acc_id acc) (accountId message)))
               allParticipants with
  | [] => false
  | _ :: _ => true
  end.


(** ** Helpers shared by the remaining handlers *)

(** JavaScript truthiness of a string and of an optional string. *)
Definition truthy (s : string) : bool := negb (String.eqb s "").

Definition opt_truthy (o : option string) : bool :=
  match o with Some s => truthy s | None => false end.

(** [a || b] on strings. *)
Definition str_or (a b : string) : string := if truthy a then a else b.

(** [s.includes(needle)] *)
Definition includes (s needle : string) : bool :=
  match String.index 0 needle s with Some _ => true | None => false end.

(** The line feed and the double quote. *)
Definition nl : string := String (ascii_of_nat 10) EmptyString.
Definition dq : string := String (ascii_of_nat 34) EmptyString.

(** ** Countdown display ([getCountdown]) *)

(** [getCountdown] with [currentTime.getTime()] = [now]; a [Date]
    argument is given by its time value ([Date.getTime()] is an integer
    number of milliseconds). *)
Definition getCountdown (now : Z) (scheduledTime : option Z) : option string :=
  match scheduledTime with
  | None => None
  | Some scheduled =>
      let diff := (scheduled - now)%Z in
      if (diff <=? -5000)%Z then None
      else if (diff <=? 0)%Z then Some "Sending..."%string
      else
        let minutes := (diff / 60000)%Z in
        let seconds := ((diff mod 60000) / 1000)%Z in
        if (0 <? minutes)%Z
        then Some (string_of_Z minutes ++ "m " ++ string_of_Z seconds ++ "s")%string
        else Some (string_of_Z seconds ++ "s")%string
  end.

(** ** The conversation list *)

(** [getActiveConversation]: [activeConversationId] is [null] ([None]) or
    a string; the empty string is falsy. *)
Definition getActiveConversation (activeConversationId : option string)
  (conversations : list Conversation) : option Conversation :=
  match activeConversationId with
  | Some id =>
      if truthy id then find (fun c => String.eqb (conv_id c) id) conversations
      else None
  | None => None
  end.

(** [updateActiveConversation updater] on the conversation list. *)
Definition updateActiveConversation (activeConversationId : option string)
  (updater : Conversation -> Conversation) (convs : list Conversation)
  : list Conversation :=
  match activeConversationId with
  | Some id =>
      if truthy id
      then map (fun c => if String.eqb (conv_id c) id then updater c else c) convs
      else convs
  | None => convs
  end.

Definition set_otherAccounts (c : Conversation) (others : list Account) : Conversation :=
  mkConversation (conv_id c) (conv_name c) (selectedAccount c)
    others (messages c) (prompt c) (minDelayMinutes c) (maxDelayMinutes c)
    (conversationLength c) (emailSubject c).

Definition set_name (c : Conversation) (name : string) : Conversation :=
  mkConversation (conv_id c) name (selectedAccount c)
    (otherAccounts c) (messages c) (prompt c) (minDelayMinutes c) (maxDelayMinutes c)
    (conversationLength c) (emailSubject c).

(** The updater of [toggleOtherAccount account]. *)
Definition toggleOtherAccount (account : Account) (c : Conversation) : Conversation :=
  let isSelected := existsb (fun a => String.eqb (acc_id a) (acc_id account)) (otherAccounts c) in
  set_otherAccounts c
    (if isSelected
     then filter (fun a => negb (String.eqb (acc_id a) (acc_id account))) (otherAccounts c)
     else otherAccounts c ++ [account]).

(** [handleRenameConversation]: the error it sets (if any) and the new
    conversation list. *)
Definition handleRenameConversation (renameConversationId : option string)
  (renameConversationName : string) (convs : list Conversation)
  : option string * list Conversation :=
  match renameConversationId with
  | Some id =>
      if truthy id && truthy (trim renameConversationName) then
        (None, map (fun c => if String.eqb (conv_id c) id
                             then set_name c (trim renameConversationName) else c) convs)
      else (Some "Conversation name is required"%string, convs)
  | None => (Some "Conversation name is required"%string, convs)
  end.

(** [handleDeleteConversation] of part_001: the remaining list and the new
    active id.  The Google Sheets sync that follows only logs its errors. *)
Definition handleDeleteConversation (conversationToDelete : option Conversation)
  (activeConversationId : option string) (conversations : list Conversation)
  : list Conversation * option string :=
  match conversationToDelete with
  | None => (conversations, activeConversationId)
  | Some d =>
      let remaining := filter (fun c => negb (String.eqb (conv_id c) (conv_id d))) conversations in
      let active' :=
        match activeConversationId with
        | Some a =>
            if String.eqb a (conv_id d)
            then match remaining with c :: _ => Some (conv_id c) | [] => None end
            else activeConversationId
        | None => activeConversationId
        end in
      (remaining, active')
  end.

(** ** Accounts *)

(** [handleAddAccount], with [now] the [Date.now()] value. *)
Definition handleAddAccount (now : Z) (newAccountName newAccountEmail
  newAccountPersonality : string) (accounts : list Account)
  : option string * list Account :=
  if negb (truthy (trim newAccountName)) || negb (truthy (trim newAccountEmail)) then
    (Some "Name and email are required"%string, accounts)
  else
    (None, accounts ++
       [mkAccount (string_of_Z now) (trim newAccountName) (trim newAccountEmail)
          (if truthy (trim newAccountPersonality)
           then Some (trim newAccountPersonality) else None) None]).

(** [handleEditAccount]. *)
Definition handleEditAccount (editAccountId : option string)
  (editAccountName editAccountEmail editAccountPersonality : string)
  (accounts : list Account) : option string * list Account :=
  match editAccountId with
  | Some id =>
      if truthy id && truthy (trim editAccountName) && truthy (trim editAccountEmail) then
        (None, map (fun acc =>
           if String.eqb (acc_id acc) id
           then mkAccount (acc_id acc) (trim editAccountName) (trim editAccountEmail)
                  (if truthy (trim editAccountPersonality)
                   then Some (trim editAccountPersonality) else None)
                  (emailConfig acc)
           else acc) accounts)
      else (Some "Name and email are required"%string, accounts)
  | None => (Some "Name and email are required"%string, accounts)
  end.

(** ** Sending one message ([sendEmailInternal], [handleSendEmail]) *)

(** The subject computed by [sendEmailInternal]. *)
Definition replySubject (conversationSubject : string)
  (previousMessageId : option string) : string :=
  if opt_truthy previousMessageId
  then (if String.prefix "Re: " conversationSubject then conversationSubject
        else "Re: " ++ conversationSubject)%string
  else conversationSubject.

(** [s.replace(/\n/g, '<br>')] *)
Fixpoint replace_newlines (s : string) : string :=
  match s with
  | EmptyString => EmptyString
  | String c rest =>
      if Ascii.eqb c (ascii_of_nat 10) then ("<br>" ++ replace_newlines rest)%string
      else String c (replace_newlines rest)
  end.

(** The [accountConfig] object [{ email, ...senderAccount.emailConfig }] as
    the route reads it. *)
Record RouteConfig := mkRouteConfig {
  rc_email : string;
  rc_smtpHost : option string;
  rc_smtpPort : option Z;
  rc_smtpUser : option string;
  rc_smtpPassword : option string;
  rc_smtpSecure : option bool
}.

(** The JSON body of [/api/send-email] as the route destructures it. *)
Record SendBody := mkSendBody {
  b_from : string;
  b_to : string;
  b_subject : string;
  b_text : option string;
  b_html : option string;
  b_accountConfig : option RouteConfig;
  b_conversationId : string;
  b_previousMessageId : option string
}.

(** The request body built by [sendEmailInternal]. *)
Definition sendEmailRequest (message : Message) (senderAccount : Account)
  (recipients : list Account) (conversationSubject conversationId : string)
  (previousMessageId : option string) : SendBody :=
  let recipientsList := String.concat ", " (map acc_email recipients) in
  let cfg := match emailConfig senderAccount with
             | Some ec => mkRouteConfig (acc_email senderAccount) (Some (smtpHost ec))
                            (Some (smtpPort ec)) (Some (smtpUser ec))
                            (Some (smtpPassword ec)) (smtpSecure ec)
             | None => mkRouteConfig (acc_email senderAccount) None None None None None
             end in
  mkSendBody (acc_name senderAccount) recipientsList
    (replySubject conversationSubject previousMessageId) (Some (content message))
    (Some ("<p>" ++ replace_newlines (content message) ++ "</p>")%string)
    (Some cfg) conversationId previousMessageId.

(** The thread parent of [handleSendEmail]: the [emailMessageId] of the
    last message with [m.sent && m.emailMessageId]. *)
Definition previousSentMessageId (ms : list Message) : option string :=
  let sentMessages :=
    filter (fun m => match sent m with Some true => opt_truthy (emailMessageId m)
                                   | _ => false end) ms in
  match rev sentMessages with
  | previousMessage :: _ => emailMessageId previousMessage
  | [] => None
  end.

(** The arguments of the [sendEmailInternal] call. *)
Record SendCall := mkSendCall {
  sc_sender : Account;
  sc_recipients : list Account;
  sc_subject : string;
  sc_previousMessageId : option string
}.

Inductive SendEmailOutcome :=
| SENoConversation
| SENoConfig
| SENoRecipients
| SEDone (store : Conversation) (error : option string) (call : SendCall).

(** [handleSendEmail message account]; [dispatch 0] answers the call. *)
Definition handleSendEmail (active : option Conversation) (message : Message)
  (account : option Account) (dispatch : Dispatch) : SendEmailOutcome :=
  match active with
  | None => SENoConversation
  | Some conv =>
      let senderAccount := match account with Some a => Some a
                           | None => selectedAccount conv end in
      match senderAccount with
      | None => SENoConfig
      | Some sa =>
          match emailConfig sa with
          | None => SENoConfig
          | Some _ =>
              match otherAccounts conv with
              | [] => SENoRecipients
              | _ :: _ =>
                  let recipients := otherAccounts conv in
                  let subject := conversationSubject conv in
                  let prev := previousSentMessageId (messages conv) in
                  let call := mkSendCall sa recipients subject prev in
                  match dispatch 0%nat message sa recipients subject (conv_id conv) prev with
                  | SendOk mid => SEDone (markSent (msg_id message) mid conv) None call
                  | SendErr => SEDone conv (Some "Failed to send email"%string) call
                  end
              end
          end
      end
  end.

(** ** One generated message ([handleGenerateMessage]) *)

(** [handleGenerateMessage], with [now] the [Date.now()] value; the
    request is [generate 0]. *)
Definition handleGenerateMessage (active : option Conversation)
  (generate : Generate) (now : Z) : GenOutcome :=
  match active with
  | None => GenNoConversation
  | Some conv =>
      match selectedAccount conv with
      | None => GenNoSender
      | Some sel =>
          match otherAccounts conv with
          | [] => GenNoParticipants
          | _ :: _ =>
              let call := mkGenCall sel (otherAccounts conv) (messages conv) in
              let data := generate 0%nat sel (otherAccounts conv) (messages conv) (prompt conv) in
              if negb (gen_ok data) then
                GenRan conv (Some (error_or (gen_error data) "Failed to generate message")) [call]
              else
                match gen_message data with
                | None => GenRan conv (Some empty_message_error) [call]
                | Some text =>
                    if String.eqb (trim text) "" then GenRan conv (Some empty_message_error) [call]
                    else
                      let newMessage :=
                        mkMessage (string_of_Z now) (acc_id sel) (acc_name sel)
                          (acc_email sel) text now None None None in
                      GenRan (set_messages_prompt conv (messages conv ++ [newMessage]) "")
                        None [call]
                end
          end
      end
  end.

(** ** The [/api/generate-message] route: the chat it sends *)

Record ChatMessage := mkChat { role : string; chat_content : string }.

Definition systemPrompt (account : Account) (otherAccounts : list Account)
  (prompt : string) : string :=
  ("You are " ++ acc_name account ++ " (" ++ acc_email account ++ "). " ++
   (if opt_truthy (personality account)
    then "Your personality and communication style: " ++
         match personality account with Some p => p | None => "" end ++ "."
    else "You are professional and friendly.") ++ nl ++ nl ++
   "You are participating in an email conversation with: " ++
   String.concat ", " (map (fun acc => acc_name acc ++ " (" ++ acc_email acc ++ ")") otherAccounts) ++
   "." ++ nl ++ nl ++
   (if truthy prompt then "Conversation context: " ++ prompt else "") ++ nl ++ nl ++
   "Generate a natural email message that fits the conversation. Keep it concise (2-4 sentences typically). Respond as " ++
   acc_name account ++ " would, maintaining consistency with your personality.")%string.

(** One history entry of [history.forEach]. *)
Definition historyTurn (account : Account) (msg : Message) : list ChatMessage :=
  if negb (truthy (content msg)) then []
  else if String.eqb (accountId msg) (acc_id account)
  then [mkChat "assistant" (content msg)]
  else [mkChat "user" ("From " ++ str_or (accountName msg) "Unknown" ++ " (" ++
                       str_or (accountEmail msg) "unknown" ++ "): " ++ content msg)%string].

(** The route up to the OpenAI call: a 400/500 error, or the chat. *)
Definition generateChat (account : Account) (otherAccounts : list Account)
  (conversationHistory : list Message) (prompt : string) (apiKeySet : bool)
  : (Z * string) + list ChatMessage :=
  if negb (truthy (acc_name account)) || negb (truthy (acc_email account)) then
    inl (400%Z, "Invalid account data. Name and email are required."%string)
  else match otherAccounts with
  | [] => inl (400%Z, "At least one other account is required for conversation."%string)
  | _ :: _ =>
      if negb apiKeySet then
        inl (500%Z, "OPENAI_API_KEY is not set in environment variables. Please add it to .env.local"%string)
      else
        inr ([mkChat "system" (systemPrompt account otherAccounts prompt)] ++
             flat_map (historyTurn account) conversationHistory ++
             [match conversationHistory with
              | [] => mkChat "user" ("Start the conversation. " ++
                        str_or prompt "Introduce yourself and begin discussing the topic.")
              | _ :: _ => mkChat "user" "Continue the conversation naturally based on the context above."
              end])
  end.

(** ** The [/api/send-email] route *)

(** The options of [nodemailer.createTransport]. *)
Record TransportOptions := mkTransport {
  t_host : string;
  t_port : Z;
  t_secure : bool;
  t_requireTLS : bool;
  t_user : string;
  t_pass : string
}.

(** The options of [transporter.sendMail]. *)
Record MailOptions := mkMail {
  mail_from : string;
  mail_to : string;
  mail_subject : string;
  mail_text : option string;
  mail_html : option string
}.

(** [transporter.verify()] followed by [sendMail]: the [messageId], or the
    error thrown ([error.code] and [error.message]). *)
Inductive SmtpResult :=
| SmtpSent (messageId : string)
| SmtpError (code : option string) (message : string).

Record Response := mkResponse {
  r_status : Z;
  r_error : option string;
  r_messageId : option string
}.

(** [from.split('@')[0]] *)
Fixpoint before_at (s : string) : string :=
  match s with
  | EmptyString => EmptyString
  | String c rest => if Ascii.eqb c "@"%char then EmptyString else String c (before_at rest)
  end.

Definition useSecurePort (port : Z) (smtpSecure : option bool) : bool :=
  if (port =? 465)%Z then true
  else if (port =? 587)%Z || (port =? 25)%Z then false
  else match smtpSecure with Some b => b | None => false end.

Definition code_is (code : option string) (c : string) : bool :=
  match code with Some k => String.eqb k c | None => false end.

(** The [catch] block of the route. *)
Definition smtpErrorResponse (cfg : RouteConfig) (code : option string) (message : string)
  : Response :=
  if code_is code "EAUTH" then
    mkResponse 401 (Some "Authentication failed. Please check your email credentials."%string) None
  else if code_is code "ECONNECTION" || code_is code "ETIMEDOUT" then
    mkResponse 503 (Some "Connection failed. Please check your SMTP settings and network connection."%string) None
  else if code_is code "ENOTFOUND" || includes message "getaddrinfo ENOTFOUND" then
    let host := str_or (match rc_smtpHost cfg with Some h => h | None => "" end) "SMTP host" in
    mkResponse 503 (Some ("DNS resolution failed for " ++ dq ++ host ++ dq ++ ". Please check:" ++ nl ++
      "1. Your internet connection" ++ nl ++ "2. The SMTP host address is correct" ++ nl ++
      "3. Your firewall/DNS settings" ++ nl ++ nl ++ "Common SMTP hosts:" ++ nl ++
      "- Gmail: smtp.gmail.com" ++ nl ++ "- Outlook: smtp-mail.outlook.com" ++ nl ++
      "- Yahoo: smtp.mail.yahoo.com")%string) None
  else if code_is code "ETIMEDOUT" then
    mkResponse 503 (Some "Connection timeout. Please check your SMTP host and port settings."%string) None
  else
    mkResponse 500 (Some (str_or message "Failed to send email. Please check your configuration.")) None.

Definition missing_fields_error : string :=
  "Missing required fields: from, to, subject, and text/html are required.".

(** [POST /api/send-email]: [dns host] is the error message of the DNS
    lookup ([None] when it resolves); [smtp] connects and sends. *)
Definition sendEmailRoute (body : SendBody) (dns : string -> option string)
  (smtp : TransportOptions -> MailOptions -> SmtpResult) : Response :=
  if negb (truthy (b_from body)) || negb (truthy (b_to body)) ||
     negb (truthy (b_subject body)) ||
     (negb (opt_truthy (b_text body)) && negb (opt_truthy (b_html body))) then
    mkResponse 400 (Some missing_fields_error) None
  else match b_accountConfig body with
  | None => mkResponse 400 (Some "Email account configuration is required."%string) None
  | Some cfg =>
      match rc_smtpHost cfg, rc_smtpPort cfg, rc_smtpUser cfg, rc_smtpPassword cfg with
      | Some host, Some port, Some user, Some pass =>
          if truthy host && negb (port =? 0)%Z && truthy user && truthy pass then
            match dns (trim host) with
            | Some err =>
                mkResponse 503 (Some ("DNS resolution failed for " ++ dq ++ host ++ dq ++ ": " ++ err ++
                  ". Please check your internet connection and DNS settings.")%string) None
            | None =>
                let isStartTLSPort := (port =? 587)%Z || (port =? 25)%Z in
                let opts := mkTransport (trim host) port (useSecurePort port (rc_smtpSecure cfg))
                              isStartTLSPort (trim user) pass in
                let mail := mkMail (dq ++ before_at (b_from body) ++ dq ++ " <" ++
                                    str_or (rc_email cfg) user ++ ">")%string
                              (b_to body) (b_subject body) (b_text body)
                              (if opt_truthy (b_html body) then b_html body else b_text body) in
                match smtp opts mail with
                | SmtpSent id => mkResponse 200 None (Some id)
                | SmtpError code msg => smtpErrorResponse cfg code msg
                end
            end
          else mkResponse 400 (Some "SMTP configuration is incomplete. Host, port, user, and password are required."%string) None
      | _, _, _, _ =>
          mkResponse 400 (Some "SMTP configuration is incomplete. Host, port, user, and password are required."%string) None
      end
  end.

(** ** Concrete inputs *)

Definition cfg : EmailConfig := mkEmailConfig "smtp.example.com" 587 "u" "p" None.

Definition acctX : Account := mkAccount "x" "X" "x@example.com" None (Some cfg).
Definition acctY : Account := mkAccount "y" "Y" "y@example.com" None (Some cfg).
Definition acctZ : Account := mkAccount "z" "Z" "z@example.com" None None.

Definition mkMsg (id : string) (a : Account) (s : option bool) : Message :=
  mkMessage id (acc_id a) (acc_name a) (acc_email a) "hello" 0 s None None.

Definition convXZ : Conversation :=
  mkConversation "c1" "demo" (Some acctX) [acctZ]
    [mkMsg "m1" acctX None; mkMsg "m2" acctZ None] "" 1 5 6 None.

Definition convSent : Conversation :=
  mkConversation "c2" "resend" (Some acctX) [acctY]
    [mkMsg "m1" acctX (Some true)] "" 1 5 6 None.

Definition conv3 : Conversation :=
  mkConversation "c3" "fixed" (Some acctX) [acctY]
    [mkMsg "m1" acctX None; mkMsg "m2" acctY None; mkMsg "m3" acctX None]
    "" 1 1 6 None.

(** A clock that advances by one millisecond between readings. *)
Definition clock_tick : nat -> Z := fun i => Z.of_nat i.

(** A send oracle that always succeeds, answering with the id it got. *)
Definition dispatch_ok : Dispatch :=
  fun _ m _ _ _ _ _ => SendOk (Some ("<" ++ msg_id m ++ ">")%string).

Definition clock0 : nat -> Z := fun _ => 0%Z.
Definition rnd0 : nat -> Q := fun _ => 0.

(** A send oracle whose call for message 1 throws. *)
Definition dispatch_fail1 : Dispatch :=
  fun i m a rs subj cid prev =>
    if Nat.eqb i 1 then SendErr else dispatch_ok i m a rs subj cid prev.

(** A generator that always answers with the same text. *)
Definition gen_echo : Generate := fun _ _ _ _ _ => mkGenResponse true (Some "hi"%string) None.

(** A DNS lookup that always resolves. *)
Definition dns_ok : string -> option string := fun _ => None.

(** A mailer that always delivers. *)
Definition smtp_ok : TransportOptions -> MailOptions -> SmtpResult :=
  fun _ _ => SmtpSent "<id@example.com>"%string.

(** A mailer that refuses a plain connection on the implicit-TLS port. *)
Definition smtp_strict465 : TransportOptions -> MailOptions -> SmtpResult :=
  fun o m => if (t_port o =? 465)%Z && negb (t_secure o)
             then SmtpError (Some "ESOCKET"%string) "wrong version number"%string
             else smtp_ok o m.

(** The request [sendEmailInternal] makes for message [m1] of [convXZ]. *)
Definition sendBody1 : SendBody :=
  sendEmailRequest (mkMsg "m1" acctX None) acctX [acctZ] "demo" "c1" None.

(** Runs the batch on concrete inputs; [Hrun] is its equation. *)
Ltac run_batch Hrun :=
  match goal with
  | |- exists store res log,
         handleSendAllMessages ?a ?r ?n ?d = BatchDone store res log /\ _ =>
      let E := fresh "E" in
      destruct (handleSendAllMessages a r n d) as [| |store res log] eqn:E;
      [vm_compute in E; discriminate | vm_compute in E; discriminate |];
      exists store, res, log; split; [reflexivity|];
      pose proof E as Hrun; vm_compute in E; injection E as <- <- <-
  end.

(** Distinct concrete message ids. *)
Ltac nodup_ids :=
  vm_compute; repeat constructor; simpl; intuition discriminate.

Example batch_convXZ :
  match handleSendAllMessages (Some convXZ) rnd0 clock0 dispatch_ok with
  | BatchDone _ r _ => r = mkBatchResult 1 2 ["Z"%string]
  | _ => False
  end.
Proof. vm_compute. reflexivity. Qed.

Open Scope nat_scope.

(** ** The send loop, one iteration at a time *)

Section SendLoop.

Variable dispatch : Dispatch.
Variable conv : Conversation.
Variable ps : list Account.

Local Open Scope nat_scope.

Lemma send_step_eq (i : nat) (m : Message) (s : BatchState) :
  send_step dispatch conv ps i m s =
  let e := step_event dispatch conv ps i m (lastMessageId s) in
  mkBatch (event_write e (bs_store s))
    ((if is_sent_event e then 1 else 0) + sentCount s)
    (event_skip m e (skippedAccounts s))
    (new_last e (lastMessageId s)) (bs_log s ++ [e]).
Proof.
  unfold send_step, step_event; cbv zeta.
  destruct (find _ ps) as [a|]; [|reflexivity].
  destruct (emailConfig a); [|reflexivity].
  destruct (filter _ ps); [reflexivity|].
  destruct (dispatch _ _ _ _ _ _ _); reflexivity.
Qed.

Lemma send_loop_log (ms : list Message) : forall i s,
  bs_log (send_loop dispatch conv ps i ms s) =
  bs_log s ++ loop_events dispatch conv ps i ms (lastMessageId s).
Proof.
  induction ms as [|m ms IH]; intros i s; simpl.
  - now rewrite app_nil_r.
  - rewrite IH, send_step_eq; simpl. now rewrite <- app_assoc.
Qed.

Lemma send_loop_store (ms : list Message) : forall i s,
  bs_store (send_loop dispatch conv ps i ms s) =
  fold_left (fun c e => event_write e c)
    (loop_events dispatch conv ps i ms (lastMessageId s)) (bs_store s).
Proof.
  induction ms as [|m ms IH]; intros i s; simpl; [reflexivity|].
  now rewrite IH, send_step_eq.
Qed.

Lemma send_loop_count (ms : list Message) : forall i s,
  sentCount (send_loop dispatch conv ps i ms s) =
  sentCount s +
  List.length (filter is_sent_event
                 (loop_events dispatch conv ps i ms (lastMessageId s))).
Proof.
  induction ms as [|m ms IH]; intros i s; simpl; [lia|].
  rewrite IH, send_step_eq; simpl.
  destruct (is_sent_event _); simpl; lia.
Qed.

Lemma step_event_index (i : nat) (m : Message) (last : option string) :
  ev_index (step_event dispatch conv ps i m last) = i.
Proof.
  unfold step_event; cbv zeta.
  destruct (find _ ps) as [a|]; [|reflexivity].
  destruct (emailConfig a); [|reflexivity].
  destruct (filter _ ps); reflexivity.
Qed.

Lemma step_event_dispatch (i : nat) (m : Message) (last : option string)
  j id p r :
  step_event dispatch conv ps i m last = EvDispatch j id p r ->
  id = msg_id m /\ p = last.
Proof.
  unfold step_event; cbv zeta.
  destruct (find _ ps) as [a|]; [|discriminate].
  destruct (emailConfig a); [|discriminate].
  destruct (filter _ ps); [discriminate|].
  intros H; injection H; intros; subst; auto.
Qed.

Lemma loop_events_length (ms : list Message) : forall i last,
  List.length (loop_events dispatch conv ps i ms last) = List.length ms.
Proof.
  induction ms as [|m ms IH]; intros; simpl; [reflexivity|]. now rewrite IH.
Qed.

Lemma loop_events_nth (ms : list Message) : forall i last n e,
  nth_error (loop_events dispatch conv ps i ms last) n = Some e ->
  exists m last', nth_error ms n = Some m /\
                  e = step_event dispatch conv ps (i + n) m last'.
Proof.
  induction ms as [|m ms IH]; intros i last n e H; simpl in H.
  - destruct n; discriminate.
  - destruct n as [|n]; simpl in H.
    + injection H as <-. exists m, last. now rewrite Nat.add_0_r.
    + destruct (IH _ _ _ _ H) as (m' & last' & Hm & He).
      exists m', last'. split; [exact Hm|]. now rewrite He, Nat.add_succ_r.
Qed.

Lemma loop_events_nth_some (ms : list Message) : forall i last n m,
  nth_error ms n = Some m ->
  exists last', nth_error (loop_events dispatch conv ps i ms last) n =
                Some (step_event dispatch conv ps (i + n) m last').
Proof.
  induction ms as [|m0 ms IH]; intros i last n m H.
  - destruct n; discriminate.
  - destruct n as [|n]; simpl in H |- *.
    + injection H as <-. exists last. now rewrite Nat.add_0_r.
    + destruct (IH (S i) (new_last (step_event dispatch conv ps i m0 last) last)
                   n m H) as (last' & Hl).
      exists last'. now rewrite Hl, Nat.add_succ_r.
Qed.

(** The [previousMessageId] of every dispatch is the identifier left by
    the events before it. *)
Lemma loop_events_prev (ms : list Message) : forall i last l1 j id p r l2,
  loop_events dispatch conv ps i ms last = l1 ++ EvDispatch j id p r :: l2 ->
  p = fold_left (fun l e => new_last e l) l1 last.
Proof.
  induction ms as [|m ms IH]; intros i last l1 j id p r l2 H; simpl in H.
  - destruct l1; discriminate.
  - destruct l1 as [|e l1]; simpl in H |- *.
    + injection H as He _.
      now destruct (step_event_dispatch _ _ _ _ _ _ _ He).
    + injection H as He Hrest. subst e. exact (IH _ _ _ _ _ _ _ _ Hrest).
Qed.

End SendLoop.

(** ** Replace-by-id writes *)

Lemma msg_write_id (e : Event) (m : Message) : msg_id (msg_write e m) = msg_id m.
Proof.
  destruct e as [i|i|i id p [mid|]]; simpl; try reflexivity;
    destruct (String.eqb _ _); reflexivity.
Qed.

Lemma msg_write_other (e : Event) (m : Message) :
  ev_id e <> Some (msg_id m) -> msg_write e m = m.
Proof.
  destruct e as [i|i|i id p r]; simpl; intros H; try reflexivity.
  destruct r; destruct (String.eqb_spec (msg_id m) id) as [Heq|_];
    congruence.
Qed.

Lemma messages_event_write (e : Event) (c : Conversation) :
  messages (event_write e c) = map (msg_write e) (messages c).
Proof.
  destruct e as [i|i|i id p [mid|]]; simpl; try reflexivity;
    rewrite map_ext with (g := fun m => m) by reflexivity;
    now rewrite map_id.
Qed.

Lemma messages_fold_write (es : list Event) : forall c,
  messages (fold_left (fun c e => event_write e c) es c) =
  map (fun m => fold_left (fun m e => msg_write e m) es m) (messages c).
Proof.
  induction es as [|e es IH]; intros c; simpl.
  - now rewrite map_id.
  - rewrite IH, messages_event_write, map_map. reflexivity.
Qed.

Lemma fold_write_none (es : list Event) : forall m,
  (forall e, In e es -> ev_id e <> Some (msg_id m)) ->
  fold_left (fun m e => msg_write e m) es m = m.
Proof.
  induction es as [|e es IH]; intros m H; simpl; [reflexivity|].
  rewrite msg_write_other by (apply H; now left).
  apply IH. intros e' He'. apply H. now right.
Qed.

Lemma fold_write_nth (es : list Event) : forall k e m,
  nth_error es k = Some e ->
  (forall n e', nth_error es n = Some e' -> n <> k -> ev_id e' <> Some (msg_id m)) ->
  fold_left (fun m e => msg_write e m) es m = msg_write e m.
Proof.
  induction es as [|e0 es IH]; intros k e m Hk Hn; [destruct k; discriminate|].
  destruct k as [|k]; simpl in Hk |- *.
  - injection Hk as ->. apply fold_write_none. intros e' He'.
    rewrite msg_write_id. destruct (In_nth_error _ _ He') as (n & Hnth).
    apply (Hn (S n)); [exact Hnth|discriminate].
  - rewrite msg_write_other by (apply (Hn 0%nat e0); [reflexivity|discriminate]).
    apply (IH k); [exact Hk|]. intros n e' H1 H2. apply (Hn (S n)); [exact H1|].
    intros Heq. apply H2. now injection Heq.
Qed.

(** ** The scheduling pass keeps the messages and their order *)

Lemma schedule_from_nth (conv : Conversation) (rnd : nat -> Q) (now : nat -> Z)
  (ms : list Message) : forall i cum n m,
  nth_error ms n = Some m ->
  exists t, nth_error (schedule_from conv rnd now i cum ms) n =
            Some (set_scheduledSendTime m (Some t)).
Proof.
  induction ms as [|m0 ms IH]; intros i cum n m H; [destruct n; discriminate|].
  destruct n as [|n]; simpl in H.
  - injection H as <-. destruct i; simpl; eexists; reflexivity.
  - destruct i; simpl; apply IH; exact H.
Qed.

Lemma schedule_from_ids (conv : Conversation) (rnd : nat -> Q) (now : nat -> Z)
  (ms : list Message) : forall i cum,
  map msg_id (schedule_from conv rnd now i cum ms) = map msg_id ms.
Proof.
  induction ms as [|m ms IH]; intros i cum; [reflexivity|].
  destruct i; simpl; now rewrite IH.
Qed.

Lemma schedule_from_length (conv : Conversation) (rnd : nat -> Q) (now : nat -> Z)
  (ms : list Message) : forall i cum,
  List.length (schedule_from conv rnd now i cum ms) = List.length ms.
Proof.
  intros i cum. rewrite <- (length_map msg_id), schedule_from_ids.
  apply length_map.
Qed.

(** ** A finished batch *)

Lemma handle_done (conv : Conversation) rnd now dispatch store res log :
  handleSendAllMessages (Some conv) rnd now dispatch = BatchDone store res log ->
  let mws := messagesWithSchedule conv rnd now in
  let init := mkBatch (set_messages conv mws) 0 [] None [] in
  messages conv <> [] /\
  log = loop_events dispatch conv (allParticipants conv) 0 mws None /\
  store = fold_left (fun c e => event_write e c) log (set_messages conv mws) /\
  br_sentCount res = List.length (filter is_sent_event log) /\
  br_totalCount res = List.length (messages conv) /\
  skippedAccountNames res =
    skippedAccounts (send_loop dispatch conv (allParticipants conv) 0 mws init).
Proof.
  unfold handleSendAllMessages. destruct (messages conv) as [|m0 l] eqn:E;
    [discriminate|].
  intros H; injection H as <- <- <-. cbv zeta.
  rewrite send_loop_log, send_loop_store, send_loop_count. simpl.
  repeat split; try reflexivity. discriminate.
Qed.

Lemma final_message (conv : Conversation) rnd now dispatch store res log k m :
  handleSendAllMessages (Some conv) rnd now dispatch = BatchDone store res log ->
  NoDup (map msg_id (messages conv)) ->
  nth_error (messages conv) k = Some m ->
  exists t last,
    let m' := set_scheduledSendTime m (Some t) in
    let e := step_event dispatch conv (allParticipants conv) k m' last in
    nth_error (messagesWithSchedule conv rnd now) k = Some m' /\
    nth_error log k = Some e /\
    nth_error (messages store) k = Some (msg_write e m').
Proof.
  intros Hrun Hnd Hk.
  destruct (handle_done _ _ _ _ _ _ _ Hrun) as (_ & Hlog & Hstore & _).
  set (mws := messagesWithSchedule conv rnd now) in *.
  destruct (schedule_from_nth conv rnd now (messages conv) 0%nat 0 k m Hk) as (t & Ht).
  fold (messagesWithSchedule conv rnd now) in Ht. fold mws in Ht.
  destruct (loop_events_nth_some dispatch conv (allParticipants conv) mws 0%nat None k _ Ht)
    as (last & Hl).
  rewrite <- Hlog in Hl.
  exists t, last. cbv zeta. split; [exact Ht|]. split; [exact Hl|].
  rewrite Hstore, messages_fold_write. simpl. rewrite nth_error_map, Ht. simpl.
  f_equal. apply (fold_write_nth _ k); [exact Hl|].
  intros n e' Hn Hne Hid. apply Hne.
  rewrite Hlog in Hn.
  destruct (loop_events_nth _ _ _ _ _ _ _ _ Hn) as (mn & lastn & Hmn & He').
  destruct e' as [j|j|j id p r]; try discriminate. simpl in Hid.
  injection Hid as Hid. symmetry in He'.
  destruct (step_event_dispatch _ _ _ _ _ _ _ _ _ _ He') as (Hidn & _).
  assert (Hids : NoDup (map msg_id mws)).
  { unfold mws, messagesWithSchedule. now rewrite schedule_from_ids. }
  apply (proj1 (NoDup_nth_error _) Hids).
  - rewrite length_map. apply nth_error_Some. congruence.
  - rewrite !nth_error_map, Hmn, Ht. simpl. congruence.
Qed.

(** ** Facts about single iterations *)

Lemma new_last_not_sent (e : Event) (x : option string) :
  is_sent_event e = false -> new_last e x = x.
Proof. destruct e as [| |i id p [mid|]]; simpl; congruence. Qed.

Lemma fold_new_last_not_sent (l : list Event) : forall x,
  (forall e, In e l -> is_sent_event e = false) ->
  fold_left (fun l e => new_last e l) l x = x.
Proof.
  induction l as [|e l IH]; intros x H; simpl; [reflexivity|].
  rewrite new_last_not_sent by (apply H; now left).
  apply IH. intros e' He'. apply H. now right.
Qed.

Lemma step_event_configured dispatch conv ps i m last :
  sender_configured ps m = true -> has_recipients ps m = true ->
  exists p r, step_event dispatch conv ps i m last = EvDispatch i (msg_id m) p r.
Proof.
  unfold sender_configured, has_recipients, step_event; cbv zeta.
  destruct (find _ ps) as [a|]; [|discriminate].
  destruct (emailConfig a); [|discriminate].
  destruct (filter _ ps); [discriminate|]. intros _ _. eauto.
Qed.

Lemma step_event_unconfigured dispatch conv ps i m last :
  sender_configured ps m = false ->
  step_event dispatch conv ps i m last = EvSkipAccount i.
Proof.
  unfold sender_configured, step_event; cbv zeta.
  destruct (find _ ps) as [a|]; [|reflexivity].
  destruct (emailConfig a); [discriminate|reflexivity].
Qed.

Lemma step_event_skips dispatch conv ps i m last :
  sender_configured ps m = false \/ has_recipients ps m = false ->
  ev_id (step_event dispatch conv ps i m last) = None.
Proof.
  unfold sender_configured, has_recipients, step_event; cbv zeta. intros H.
  destruct (find _ ps) as [a|]; [|reflexivity].
  destruct (emailConfig a); [|reflexivity].
  destruct (filter _ ps); [reflexivity|]. destruct H; discriminate.
Qed.

Lemma filter_length_lt {A} (f : A -> bool) (l : list A) : forall k x,
  nth_error l k = Some x -> f x = false ->
  List.length (filter f l) < List.length l.
Proof.
  induction l as [|y l IH]; intros k x Hk Hf; [destruct k; discriminate|].
  pose proof (filter_length_le f l) as Hle.
  destruct k as [|k]; simpl in Hk |- *.
  - injection Hk as ->. rewrite Hf. simpl. lia.
  - specialize (IH k x Hk Hf). destruct (f y); simpl; lia.
Qed.

Lemma add_skipped_In (name x : string) (l : list string) :
  In x l -> In x (add_skipped name l).
Proof.
  unfold add_skipped. destruct (existsb _ l); [auto|]. intros H.
  apply in_or_app. now left.
Qed.

Lemma add_skipped_new (name : string) (l : list string) :
  In name (add_skipped name l).
Proof.
  unfold add_skipped. destruct (existsb (String.eqb name) l) eqn:E.
  - apply existsb_exists in E as (y & Hy & Heq).
    apply String.eqb_eq in Heq. now subst.
  - apply in_or_app. right. now left.
Qed.

Lemma add_skipped_NoDup (name : string) (l : list string) :
  NoDup l -> NoDup (add_skipped name l).
Proof.
  unfold add_skipped. destruct (existsb (String.eqb name) l) eqn:E; [auto|].
  intros Hnd. apply NoDup_app; [exact Hnd|constructor; [intros []|constructor]|].
  intros x Hx [Heq|[]]. subst x.
  assert (existsb (String.eqb name) l = true) as E'.
  { apply existsb_exists. exists name. split; [exact Hx|]. apply String.eqb_refl. }
    congruence.
Qed.

Section Skipped.

Variable dispatch : Dispatch.
Variable conv : Conversation.
Variable ps : list Account.

Lemma send_loop_skipped_In (ms : list Message) : forall i s x,
  In x (skippedAccounts s) ->
  In x (skippedAccounts (send_loop dispatch conv ps i ms s)).
Proof.
  induction ms as [|m ms IH]; intros i s x H; simpl; [exact H|].
  apply IH. rewrite send_step_eq. simpl.
  destruct (step_event _ _ _ _ _ _); simpl; auto using add_skipped_In.
Qed.

Lemma send_loop_skipped_NoDup (ms : list Message) : forall i s,
  NoDup (skippedAccounts s) ->
  NoDup (skippedAccounts (send_loop dispatch conv ps i ms s)).
Proof.
  induction ms as [|m ms IH]; intros i s H; simpl; [exact H|].
  apply IH. rewrite send_step_eq. simpl.
  destruct (step_event _ _ _ _ _ _); simpl; auto using add_skipped_NoDup.
Qed.

Lemma send_loop_skipped_msg (ms : list Message) : forall i s n m,
  nth_error ms n = Some m -> sender_configured ps m = false ->
  In (accountName m) (skippedAccounts (send_loop dispatch conv ps i ms s)).
Proof.
  induction ms as [|m0 ms IH]; intros i s n m Hn Hc; [destruct n; discriminate|].
  destruct n as [|n]; simpl in Hn |- *.
  - injection Hn as <-. apply send_loop_skipped_In. rewrite send_step_eq. simpl.
    rewrite step_event_unconfigured by exact Hc. apply add_skipped_new.
  - exact (IH _ _ _ _ Hn Hc).
Qed.

End Skipped.

(** ** Claims about the batch send operation *)

Lemma handle_log_length conv rnd now dispatch store res log :
  handleSendAllMessages (Some conv) rnd now dispatch = BatchDone store res log ->
  List.length log = List.length (messages conv).
Proof.
  intros Hrun. destruct (handle_done _ _ _ _ _ _ _ Hrun) as (_ & Hlog & _).
  rewrite Hlog, loop_events_length. unfold messagesWithSchedule.
  apply schedule_from_length.
Qed.

(** C1: in a batch, the dispatch of each successfully sent message after
    the first receives as [previousMessageId] the [messageId] returned by
    the previous successful dispatch, however many skipped or failed
    messages lie between them; and one iteration of the loop changes the
    held [lastMessageId] only when it is a successful dispatch, to the
    identifier that dispatch returned. *)
Theorem batch_thread_linkage :
  (forall conv rnd now dispatch store res log l1 i id p mid l j id' p' r' l2,
     handleSendAllMessages (Some conv) rnd now dispatch = BatchDone store res log ->
     log = l1 ++ EvDispatch i id p (SendOk mid) :: l ++ EvDispatch j id' p' r' :: l2 ->
     (forall e, In e l -> is_sent_event e = false) ->
     p' = mid) /\
  (forall dispatch conv ps i m s e,
     bs_log (send_step dispatch conv ps i m s) = bs_log s ++ [e] ->
     lastMessageId (send_step dispatch conv ps i m s) =
       match e with
       | EvDispatch _ _ _ (SendOk mid) => mid
       | _ => lastMessageId s
       end).
Proof.
  split.
  - intros conv rnd now dispatch store res log l1 i id p mid l j id' p' r' l2
      Hrun Heq Hl.
    destruct (handle_done _ _ _ _ _ _ _ Hrun) as (_ & Hlog & _).
    rewrite Hlog in Heq.
    replace (l1 ++ EvDispatch i id p (SendOk mid) :: l ++ EvDispatch j id' p' r' :: l2)
      with ((l1 ++ EvDispatch i id p (SendOk mid) :: l) ++ EvDispatch j id' p' r' :: l2)
      in Heq by (rewrite <- app_assoc; reflexivity).
    apply loop_events_prev in Heq. rewrite Heq, fold_left_app. simpl.
    now apply fold_new_last_not_sent.
  - intros dispatch conv ps i m s e Hlog.
    rewrite send_step_eq in Hlog |- *. simpl in Hlog |- *.
    apply app_inv_head in Hlog. injection Hlog as <-.
    destruct (step_event _ _ _ _ _ _) as [| |? ? ? [?|]]; reflexivity.
Qed.

(** C3: when the dispatch of message [k] throws, message [k] ends the
    batch with its [sent] flag as it was (not true) and no
    [scheduledSendTime]; fewer messages are counted as sent than the
    conversation holds; and every later message is still processed, a
    dispatch being made for each whose sender is a configured participant
    with recipients.  Message ids are assumed distinct. *)
Theorem batch_partial_failure conv rnd now dispatch store res log k m p :
  handleSendAllMessages (Some conv) rnd now dispatch = BatchDone store res log ->
  NoDup (map msg_id (messages conv)) ->
  nth_error (messages conv) k = Some m ->
  sent m <> Some true ->
  nth_error log k = Some (EvDispatch k (msg_id m) p SendErr) ->
  (exists m', nth_error (messages store) k = Some m' /\ sent m' = sent m /\
              sent m' <> Some true /\ scheduledSendTime m' = None) /\
  br_sentCount res < br_totalCount res /\
  (forall j mj, k < j -> nth_error (messages conv) j = Some mj ->
     exists e, nth_error log j = Some e /\ ev_index e = j /\
       (sender_configured (allParticipants conv) mj = true ->
        has_recipients (allParticipants conv) mj = true ->
        exists p' r', e = EvDispatch j (msg_id mj) p' r')).
Proof.
  intros Hrun Hnd Hk Hs Hev.
  pose proof (handle_log_length _ _ _ _ _ _ _ Hrun) as Hlen.
  destruct (handle_done _ _ _ _ _ _ _ Hrun) as (_ & Hlog & _ & Hcnt & Htot & _).
  destruct (final_message _ _ _ _ _ _ _ _ _ Hrun Hnd Hk) as (t & last & Hmws & Hl & Hst).
  rewrite Hev in Hl. injection Hl as Hl.
  split; [|split].
  - rewrite <- Hl in Hst. simpl in Hst. rewrite String.eqb_refl in Hst.
    eexists; split; [exact Hst|]. simpl. auto.
  - rewrite Hcnt, Htot, <- Hlen.
    apply (filter_length_lt _ _ k _ Hev). reflexivity.
  - intros j mj Hkj Hj.
    destruct (schedule_from_nth conv rnd now (messages conv) 0 0%Q j mj Hj) as (tj & Htj).
    destruct (loop_events_nth_some dispatch conv (allParticipants conv) _ 0 None j _ Htj)
      as (lj & Hlj).
    fold (messagesWithSchedule conv rnd now) in Hlj. rewrite <- Hlog in Hlj.
    eexists; split; [exact Hlj|]. split; [apply step_event_index|].
    intros Hc Hr.
    destruct (step_event_configured dispatch conv (allParticipants conv) (0 + j)
                (set_scheduledSendTime mj (Some tj)) lj Hc Hr) as (p' & r' & He).
    exists p', r'. rewrite He. reflexivity.
Qed.

(** C4: a message whose sender is not a participant or has no
    [emailConfig] is not dispatched (its event is a skip), its
    [accountName] occurs exactly once in [skippedAccountNames], and the
    batch goes on to every message; with participants X (configured) and
    Z (no [emailConfig]) and one message from each, a batch in which X's
    dispatch does not throw reports one sent message out of two and the
    skipped names ["Z"]. *)
Theorem batch_skipped_accounts :
  (forall conv rnd now dispatch store res log k m,
     handleSendAllMessages (Some conv) rnd now dispatch = BatchDone store res log ->
     nth_error (messages conv) k = Some m ->
     sender_configured (allParticipants conv) m = false ->
     nth_error log k = Some (EvSkipAccount k) /\
     count_occ string_dec (skippedAccountNames res) (accountName m) = 1 /\
     List.length log = List.length (messages conv)) /\
  (forall rnd now dispatch,
     (forall m a rs subj cid prev, dispatch 0 m a rs subj cid prev <> SendErr) ->
     match handleSendAllMessages (Some convXZ) rnd now dispatch with
     | BatchDone _ r _ => r = mkBatchResult 1 2 ["Z"%string]
     | _ => False
     end).
Proof.
  split.
  - intros conv rnd now dispatch store res log k m Hrun Hk Hc.
    pose proof (handle_log_length _ _ _ _ _ _ _ Hrun) as Hlen.
    destruct (handle_done _ _ _ _ _ _ _ Hrun) as (_ & Hlog & _ & _ & _ & Hskip).
    destruct (schedule_from_nth conv rnd now (messages conv) 0 0%Q k m Hk) as (t & Ht).
    fold (messagesWithSchedule conv rnd now) in Ht.
    destruct (loop_events_nth_some dispatch conv (allParticipants conv) _ 0 None k _ Ht)
      as (lk & Hlk).
    rewrite <- Hlog in Hlk.
    split; [|split; [|exact Hlen]].
    + rewrite Hlk, (step_event_unconfigured dispatch conv (allParticipants conv)
                      (0 + k) (set_scheduledSendTime m (Some t)) lk Hc).
      reflexivity.
    + rewrite Hskip. apply NoDup_count_occ'.
      * apply send_loop_skipped_NoDup. constructor.
      * exact (send_loop_skipped_msg _ _ _ _ _ _ _ _ Ht Hc).
  - intros rnd now dispatch Hok. cbn.
    destruct (dispatch 0 _ _ _ _ _ _) eqn:E; [reflexivity|].
    exfalso. exact (Hok _ _ _ _ _ _ E).
Qed.

(** C9: the two writes of the send loop replace by id.  [markSent] and
    [markFailed] keep the length of the message list, leave every message
    whose id differs from the dispatched one as it is, and rewrite those
    whose id matches; and each iteration of the loop either leaves the
    store alone or applies one of these writes with the id of the message
    it dispatched. *)
Theorem batch_write_frame :
  (forall (id : string) (mid : option string) (c : Conversation),
     List.length (messages (markSent id mid c)) = List.length (messages c) /\
     List.length (messages (markFailed id c)) = List.length (messages c) /\
     (forall j mj, nth_error (messages c) j = Some mj -> msg_id mj <> id ->
        nth_error (messages (markSent id mid c)) j = Some mj /\
        nth_error (messages (markFailed id c)) j = Some mj) /\
     (forall j mj, nth_error (messages c) j = Some mj -> msg_id mj = id ->
        nth_error (messages (markSent id mid c)) j = Some (set_sent_result mj mid) /\
        nth_error (messages (markFailed id c)) j =
          Some (set_scheduledSendTime mj None))) /\
  (forall dispatch conv ps i m s,
     bs_store (send_step dispatch conv ps i m s) = bs_store s \/
     (exists mid, bs_store (send_step dispatch conv ps i m s) =
                  markSent (msg_id m) mid (bs_store s)) \/
     bs_store (send_step dispatch conv ps i m s) = markFailed (msg_id m) (bs_store s)).
Proof.
  split.
  - intros id mid c. unfold markSent, markFailed; simpl.
    rewrite !length_map. split; [reflexivity|]. split; [reflexivity|].
    split; intros j mj Hj Hid; rewrite !nth_error_map, Hj; simpl.
    + apply String.eqb_neq in Hid. now rewrite Hid.
    + subst id. now rewrite String.eqb_refl.
  - intros dispatch conv ps i m s. rewrite send_step_eq. simpl.
    destruct (step_event dispatch conv ps i m (lastMessageId s)) as [j|j|j id p r] eqn:E;
      simpl; auto.
    destruct (step_event_dispatch _ _ _ _ _ _ _ _ _ _ E) as (-> & _).
    destruct r; eauto.
Qed.

(** C10: a message the loop skips (a sender that is not a configured
    participant, or no recipients) ends the batch exactly as the
    scheduling pass left it: its [scheduledSendTime] is the time assigned
    there and its [sent] flag is untouched.  Message ids are assumed
    distinct. *)
Theorem batch_skipped_keeps_schedule conv rnd now dispatch store res log k m :
  handleSendAllMessages (Some conv) rnd now dispatch = BatchDone store res log ->
  NoDup (map msg_id (messages conv)) ->
  nth_error (messages conv) k = Some m ->
  sender_configured (allParticipants conv) m = false \/
  has_recipients (allParticipants conv) m = false ->
  exists t,
    nth_error (messagesWithSchedule conv rnd now) k =
      Some (set_scheduledSendTime m (Some t)) /\
    nth_error (messages store) k = Some (set_scheduledSendTime m (Some t)).
Proof.
  intros Hrun Hnd Hk Hskip.
  destruct (final_message _ _ _ _ _ _ _ _ _ Hrun Hnd Hk) as (t & last & Hmws & _ & Hst).
  exists t. split; [exact Hmws|]. rewrite Hst. f_equal.
  apply msg_write_other.
  rewrite (step_event_skips dispatch conv (allParticipants conv) k
             (set_scheduledSendTime m (Some t)) last Hskip).
  discriminate.
Qed.

(** C6 (as the code does it): the batch takes every message of the
    conversation, whatever its [sent] flag: each one gets a
    [scheduledSendTime] in the scheduling pass, and each one whose sender
    is a configured participant with recipients is dispatched; the total
    of the batch summary ([Sent x out of N messages]) is the number of all
    messages, and so is the count on the Send All button, before and after
    the batch. *)
Theorem batch_processes_all_messages conv rnd now dispatch store res log k m :
  handleSendAllMessages (Some conv) rnd now dispatch = BatchDone store res log ->
  nth_error (messages conv) k = Some m ->
  (exists t, nth_error (messagesWithSchedule conv rnd now) k =
             Some (set_scheduledSendTime m (Some t))) /\
  (sender_configured (allParticipants conv) m = true ->
   has_recipients (allParticipants conv) m = true ->
   exists p r, nth_error log k = Some (EvDispatch k (msg_id m) p r)) /\
  br_totalCount res = List.length (messages conv) /\
  batchSuccessMessage res =
    (("Sent " ++ string_of_nat (br_sentCount res) ++ " out of " ++
      string_of_nat (List.length (messages conv)) ++ " messages") ++
     skippedSuffix (skippedAccountNames res))%string /\
  sendAllButtonLabel false conv =
    ("Send All Messages (" ++ string_of_nat (List.length (messages conv)) ++ ")")%string /\
  sendAllButtonLabel false store = sendAllButtonLabel false conv.
Proof.
  intros Hrun Hk.
  destruct (handle_done _ _ _ _ _ _ _ Hrun) as (_ & Hlog & Hstore & _ & Htot & _).
  destruct (schedule_from_nth conv rnd now (messages conv) 0 0%Q k m Hk) as (t & Ht).
  fold (messagesWithSchedule conv rnd now) in Ht.
  split; [eauto|]. split; [|split; [exact Htot|split; [|split]]].
  - intros Hc Hr.
    destruct (loop_events_nth_some dispatch conv (allParticipants conv) _ 0 None k _ Ht)
      as (lk & Hlk).
    rewrite <- Hlog in Hlk.
    destruct (step_event_configured dispatch conv (allParticipants conv) (0 + k)
                (set_scheduledSendTime m (Some t)) lk Hc Hr) as (p & r & He).
    exists p, r. rewrite Hlk, He. reflexivity.
  - unfold batchSuccessMessage. now rewrite Htot.
  - reflexivity.
  - unfold sendAllButtonLabel. rewrite Hstore, messages_fold_write, length_map.
    simpl messages. unfold messagesWithSchedule. now rewrite schedule_from_length.
Qed.

(** C6, counterexample: a conversation whose only message is already
    sent; the batch gives it a new [scheduledSendTime] and dispatches it
    again. *)
Lemma batch_resends_sent_message :
  ~ (forall conv rnd now dispatch store res log k m,
       handleSendAllMessages (Some conv) rnd now dispatch = BatchDone store res log ->
       nth_error (messages conv) k = Some m ->
       sent m = Some true ->
       nth_error (messagesWithSchedule conv rnd now) k = Some m /\
       (forall e, nth_error log k = Some e -> ev_id e = None)).
Proof.
  intros H.
  destruct (H convSent rnd0 clock0 dispatch_ok _ _ _ 0 (mkMsg "m1" acctX (Some true))
              eq_refl eq_refl eq_refl) as (Hs & _).
  vm_compute in Hs. discriminate.
Qed.

(** ** The scheduling pass *)

Section Schedule.

Local Open Scope Q_scope.





Variables minMs maxMs r : Q.
Variables zmin zmax : Z.
Hypothesis Hmin : minMs == inject_Z zmin.
Hypothesis Hmax : maxMs == inject_Z zmax.
Hypothesis Hle : (zmin <= zmax)%Z.
Hypothesis Hr : 0 <= r /\ r < 1.





End Schedule.












(** ** Full-conversation generation *)

Lemma nth_error_snoc {A} (l : list A) (x y : A) (j : nat) :
  nth_error (l ++ [x]) j = Some y ->
  (j < List.length l /\ nth_error l j = Some y) \/ (j = List.length l /\ y = x).
Proof.
  intros H. destruct (Nat.lt_ge_cases j (List.length l)) as [Hlt|Hge].
  - left. split; [exact Hlt|]. rewrite nth_error_app1 in H; auto.
  - right. rewrite nth_error_app2 in H by exact Hge.
    destruct (j - List.length l) eqn:E; simpl in H.
    + split; [lia|]. now injection H.
    + destruct n; discriminate.
Qed.

Lemma firstn_snoc_le {A} (l : list A) (x : A) (j : nat) :
  j <= List.length l -> firstn j (l ++ [x]) = firstn j l.
Proof.
  intros H. rewrite firstn_app.
  replace (j - List.length l) with 0 by lia. simpl. apply app_nil_r.
Qed.

Section GenLoop.
Variables (generate : Generate) (clock : nat -> Z) (conv : Conversation)
  (parts : list Account) (sel : Account).
Hypothesis Hparts : parts <> [].

Lemma gen_loop_inv : forall fuel i hist newM calls err newM' calls',
  List.length newM = i -> List.length calls = i ->
  hist = messages conv ++ newM ->
  (forall j c, nth_error calls j = Some c ->
     call_sender c = nth (j mod List.length parts) parts sel /\
     call_history c = messages conv ++ firstn j newM) ->
  (forall j m, nth_error newM j = Some m ->
     accountId m = acc_id (nth (j mod List.length parts) parts sel)) ->
  gen_loop generate clock conv parts i fuel hist newM calls = (err, newM', calls') ->
  (forall j c, nth_error calls' j = Some c ->
     call_sender c = nth (j mod List.length parts) parts sel /\
     call_history c = messages conv ++ firstn j newM') /\
  (forall j m, nth_error newM' j = Some m ->
     accountId m = acc_id (nth (j mod List.length parts) parts sel)) /\
  (err = None -> List.length newM' = i + fuel /\ List.length calls' = i + fuel) /\
  (err <> None -> List.length calls' = S (List.length newM')).
Proof.
  induction fuel as [|fuel IH];
    intros i hist newM calls err newM' calls' Hn Hc Hh Hcalls Hmsgs Hrun.
  - simpl in Hrun. injection Hrun as <- <- <-.
    split; [exact Hcalls|]. split; [exact Hmsgs|]. split.
    + intros _. lia.
    + intros Hne. exfalso. apply Hne. reflexivity.
  - simpl in Hrun.
    assert (Hlen : List.length parts <> 0)
      by (destruct parts; [contradiction | discriminate]).
    destruct (nth_error parts (i mod List.length parts)) as [a|] eqn:Ea.
    2:{ exfalso. apply nth_error_None in Ea.
        pose proof (Nat.mod_upper_bound i (List.length parts) Hlen). lia. }
    assert (Ha : nth (i mod List.length parts) parts sel = a)
      by (apply nth_error_nth; exact Ea).
    set (others := filter_idx (fun idx => negb (Nat.eqb idx (i mod List.length parts))) parts 0) in Hrun.
    set (calls2 := calls ++ [mkGenCall a others hist]) in Hrun.
    assert (Hcalls2 : forall newMf,
               (forall j, j <= i -> firstn j newMf = firstn j newM) ->
               forall j c, nth_error calls2 j = Some c ->
               call_sender c = nth (j mod List.length parts) parts sel /\
               call_history c = messages conv ++ firstn j newMf).
    { intros newMf Hpre j c Hj. unfold calls2 in Hj.
      apply nth_error_snoc in Hj as [[Hlt Hj]|[-> ->]].
      - destruct (Hcalls j c Hj) as [Hs Hhist]. split; [exact Hs|].
        rewrite Hhist, Hpre by lia. reflexivity.
      - simpl. rewrite Hc, Ha. split; [reflexivity|].
        rewrite Hpre by lia. rewrite Hh, <- Hn, firstn_all. reflexivity. }
    assert (Hfail : forall e, (Some e, newM, calls2) = (err, newM', calls') ->
      (forall j c, nth_error calls' j = Some c ->
         call_sender c = nth (j mod List.length parts) parts sel /\
         call_history c = messages conv ++ firstn j newM') /\
      (forall j m, nth_error newM' j = Some m ->
         accountId m = acc_id (nth (j mod List.length parts) parts sel)) /\
      (err = None -> List.length newM' = i + S fuel /\ List.length calls' = i + S fuel) /\
      (err <> None -> List.length calls' = S (List.length newM'))).
    { intros e He. injection He as <- <- <-.
      split; [apply (Hcalls2 newM); auto|].
      split; [exact Hmsgs|]. split; [discriminate|].
      intros _. unfold calls2. rewrite length_app, Hc, Hn. simpl. lia. }
    destruct (gen_ok _); simpl in Hrun; [|exact (Hfail _ Hrun)].
    destruct (gen_message _) as [text|]; [|exact (Hfail _ Hrun)].
    destruct (String.eqb (trim text) ""); [exact (Hfail _ Hrun)|].
    set (nm := mkMessage _ _ _ _ _ _ _ _ _) in Hrun.
    destruct (IH (S i) (hist ++ [nm]) (newM ++ [nm]) calls2 err newM' calls')
      as (H1 & H2 & H3 & H4); auto.
    + rewrite length_app, Hn. simpl. lia.
    + unfold calls2. rewrite length_app, Hc. simpl. lia.
    + rewrite Hh, app_assoc. reflexivity.
    + apply Hcalls2; auto. intros j Hj. apply firstn_snoc_le. lia.
    + intros j m Hj. apply nth_error_snoc in Hj as [[_ Hj]|[-> ->]].
      * exact (Hmsgs j m Hj).
      * simpl. rewrite Hn, Ha. reflexivity.
    + split; [exact H1|]. split; [exact H2|]. split; [|exact H4].
      intros He. destruct (H3 He). split; lia.
Qed.

End GenLoop.

(** C7: when the generation runs (a selected sender and at least one other
    participant), request [i] is made for sender
    [participants[i % participants.length]] with participants
    [[selectedAccount, ...otherAccounts]], and its history is the
    conversation's messages followed by the messages generated in
    iterations [0 .. i-1]; generated message [i] has that sender.  When
    no request fails, [L] messages are generated and appended and the
    prompt is cleared.  At the first failure the loop stops (no request
    after the failing one) and the conversation is left as it was: its
    existing messages are kept and none of the loop's messages is
    appended. *)
Theorem generate_full_conversation (conv : Conversation) (sel : Account)
  (generate : Generate) (clock : nat -> Z) (store : Conversation)
  (err : option string) (calls : list GenCall) :
  selectedAccount conv = Some sel -> otherAccounts conv <> [] ->
  handleGenerateFullConversation (Some conv) generate clock = GenRan store err calls ->
  let participants := sel :: otherAccounts conv in
  exists newMessages,
    (forall i c, nth_error calls i = Some c ->
       call_sender c = nth (i mod List.length participants) participants sel /\
       call_history c = messages conv ++ firstn i newMessages) /\
    (forall i m, nth_error newMessages i = Some m ->
       accountId m = acc_id (nth (i mod List.length participants) participants sel)) /\
    (err = None ->
       List.length newMessages = Z.to_nat (conversationLength conv) /\
       List.length calls = Z.to_nat (conversationLength conv) /\
       store = set_messages_prompt conv (messages conv ++ newMessages) "") /\
    (err <> None -> store = conv /\ List.length calls = S (List.length newMessages)).
Proof.
  intros Hsel Hothers Hrun participants.
  unfold handleGenerateFullConversation in Hrun. rewrite Hsel in Hrun.
  destruct (otherAccounts conv) as [|o os] eqn:Eo; [contradiction|].
  fold participants in Hrun.
  destruct (gen_loop generate clock conv participants 0
              (Z.to_nat (conversationLength conv)) (messages conv) [] [])
    as [[e newM] cs] eqn:Eloop.
  destruct (gen_loop_inv generate clock conv participants sel ltac:(discriminate)
              (Z.to_nat (conversationLength conv)) 0 (messages conv) [] [] e newM cs
              eq_refl eq_refl (eq_sym (app_nil_r _))
              ltac:(intros [] c Hc; discriminate)
              ltac:(intros [] m Hm; discriminate) Eloop)
    as (H1 & H2 & H3 & H4).
  exists newM. split; [|split; [exact H2|]].
  - destruct e; injection Hrun as _ _ <-; exact H1.
  - destruct e as [e|]; injection Hrun as <- <- <-.
    + split; [discriminate|]. intros _. split; [reflexivity|]. apply H4. discriminate.
    + split; [|intros []; reflexivity]. intros _.
      destruct (H3 eq_refl) as [L1 L2]. repeat split; assumption.
Qed.

(** ** Delay bounds *)

Lemma Qlt_bool_false (a b : Q) : Qlt_bool a b = false -> (b <= a)%Q.
Proof.
  unfold Qlt_bool. intros H. apply Qle_bool_iff.
  destruct (Qle_bool b a); [reflexivity | discriminate].
Qed.

(** C8: every reachable conversation has [minDelayMinutes <= maxDelayMinutes];
    editing the minimum above the maximum sets the maximum to the new
    minimum, and editing the maximum below the minimum sets the minimum to
    the new maximum. *)
Theorem delay_bounds_ordered :
  (forall c, reachable c -> (minDelayMinutes c <= maxDelayMinutes c)%Q) /\
  (forall c parsed, (maxDelayMinutes c < parse_delay parsed)%Q ->
     minDelayMinutes (editMinDelay parsed c) = parse_delay parsed /\
     maxDelayMinutes (editMinDelay parsed c) = parse_delay parsed) /\
  (forall c parsed, (parse_delay parsed < minDelayMinutes c)%Q ->
     maxDelayMinutes (editMaxDelay parsed c) = parse_delay parsed /\
     minDelayMinutes (editMaxDelay parsed c) = parse_delay parsed).
Proof.
  split; [|split].
  - intros c Hr. induction Hr as [name now c Hc|c legacy _ IH|base legacy
      |parsed c _ IH|parsed c _ IH|c c' _ IH Emin Emax].
    + unfold handleCreateConversationWithName in Hc.
      destruct (String.eqb _ _); [discriminate|].
      injection Hc as <-. simpl. unfold Qle. simpl. lia.
    + unfold migrateConversation, persist. simpl.
      destruct legacy; simpl; [apply Qle_refl | exact IH].
    + unfold migrateConversation. simpl.
      destruct legacy; simpl; [apply Qle_refl|]. unfold Qle. simpl. lia.
    + unfold editMinDelay. simpl.
      destruct (Qlt_bool (maxDelayMinutes c) (parse_delay parsed)) eqn:E.
      * apply Qle_refl.
      * exact (Qlt_bool_false _ _ E).
    + unfold editMaxDelay. simpl.
      destruct (Qlt_bool (parse_delay parsed) (minDelayMinutes c)) eqn:E.
      * apply Qle_refl.
      * exact (Qlt_bool_false _ _ E).
    + rewrite Emin, Emax. exact IH.
  - intros c parsed Hlt. unfold editMinDelay. simpl.
    destruct (Qlt_bool (maxDelayMinutes c) (parse_delay parsed)) eqn:E.
    + split; reflexivity.
    + apply Qlt_bool_false in E. exfalso. apply (Qlt_not_le _ _ Hlt E).
  - intros c parsed Hlt. unfold editMaxDelay. simpl.
    destruct (Qlt_bool (parse_delay parsed) (minDelayMinutes c)) eqn:E.
    + split; reflexivity.
    + apply Qlt_bool_false in E. exfalso. apply (Qlt_not_le _ _ Hlt E).
Qed.

(** ** Witnesses *)

Open Scope string_scope.

(** C1 at [conv3] with every send succeeding: message 2 threads off the
    id returned for message 1. *)
Lemma batch_thread_linkage_witness :
  exists store res log,
    handleSendAllMessages (Some conv3) rnd0 clock0 dispatch_ok = BatchDone store res log /\
    exists p' r' l2,
      log = ([] ++ EvDispatch 0 "m1" None (SendOk (Some "<m1>")) :: [] ++
              EvDispatch 1 "m2" p' r' :: l2)%list /\
      p' = Some "<m1>"%string.
Proof.
  run_batch Hrun.
  eexists; eexists; eexists; split; [reflexivity|].
  exact (proj1 batch_thread_linkage conv3 rnd0 clock0 dispatch_ok _ _ _ [] 0 "m1"%string
           None (Some "<m1>"%string) [] 1 "m2"%string _ _ _ Hrun eq_refl
           (fun e (H : In e []) => match H with end)).
Defined.

(** C3 at [conv3] with the send of message 1 throwing. *)
Lemma batch_partial_failure_witness :
  exists store res log,
    handleSendAllMessages (Some conv3) rnd0 clock0 dispatch_fail1 = BatchDone store res log /\
    br_sentCount res < br_totalCount res.
Proof.
  run_batch Hrun.
  refine (proj1 (proj2 (batch_partial_failure conv3 rnd0 clock0 dispatch_fail1 _ _ _ 1
            (mkMsg "m2" acctY None) (Some "<m1>"%string) Hrun _ eq_refl _ eq_refl))).
  - nodup_ids.
  - simpl. discriminate.
Defined.

(** C4 at [convXZ]: message 1, from the unconfigured [Z], is skipped. *)
Lemma batch_skipped_accounts_witness :
  exists store res log,
    handleSendAllMessages (Some convXZ) rnd0 clock0 dispatch_ok = BatchDone store res log /\
    count_occ string_dec (skippedAccountNames res) "Z" = 1.
Proof.
  run_batch Hrun.
  exact (proj1 (proj2 (proj1 batch_skipped_accounts convXZ rnd0 clock0 dispatch_ok _ _ _ 1
           (mkMsg "m2" acctZ None) Hrun eq_refl eq_refl))).
Defined.

(** C9 at [conv3]: marking [m2] leaves message 0 as it was. *)
Lemma batch_write_frame_witness :
  nth_error (messages (markSent "m2" (Some "<m2>") conv3)) 0 = Some (mkMsg "m1" acctX None) /\
  nth_error (messages (markFailed "m2" conv3)) 0 = Some (mkMsg "m1" acctX None).
Proof.
  exact (proj1 (proj2 (proj2 (proj1 batch_write_frame "m2"%string
           (Some "<m2>"%string) conv3))) 0 (mkMsg "m1" acctX None) eq_refl
           ltac:(simpl; discriminate)).
Defined.

(** C10 at [convXZ]: the skipped message 1 keeps its scheduled time. *)
Lemma batch_skipped_keeps_schedule_witness :
  exists store res log,
    handleSendAllMessages (Some convXZ) rnd0 clock0 dispatch_ok = BatchDone store res log /\
    exists t,
      nth_error (messagesWithSchedule convXZ rnd0 clock0) 1 =
        Some (set_scheduledSendTime (mkMsg "m2" acctZ None) (Some t)) /\
      nth_error (messages store) 1 =
        Some (set_scheduledSendTime (mkMsg "m2" acctZ None) (Some t)).
Proof.
  run_batch Hrun.
  apply (batch_skipped_keeps_schedule convXZ rnd0 clock0 dispatch_ok _ _ _ 1
           (mkMsg "m2" acctZ None) Hrun).
  - nodup_ids.
  - reflexivity.
  - left. reflexivity.
Defined.

(** C6 at [convSent]: the message already marked sent is dispatched. *)
Lemma batch_processes_all_messages_witness :
  exists store res log,
    handleSendAllMessages (Some convSent) rnd0 clock0 dispatch_ok = BatchDone store res log /\
    (exists p r, nth_error log 0 = Some (EvDispatch 0 "m1" p r)) /\
    sendAllButtonLabel false store = "Send All Messages (1)".
Proof.
  run_batch Hrun.
  destruct (batch_processes_all_messages convSent rnd0 clock0 dispatch_ok _ _ _ 0
              (mkMsg "m1" acctX (Some true)) Hrun eq_refl) as (_ & Hd & _ & _ & _ & Hl).
  split; [exact (Hd eq_refl eq_refl)|]. rewrite Hl. reflexivity.
Defined.



(** C7 at [conv3] with a generator that always answers: request 1 is
    made for the second participant. *)
Lemma generate_full_conversation_witness :
  match handleGenerateFullConversation (Some conv3) gen_echo clock_tick with
  | GenRan store err calls =>
      forall c, nth_error calls 1 = Some c -> call_sender c = acctY
  | _ => False
  end.
Proof.
  destruct (handleGenerateFullConversation (Some conv3) gen_echo clock_tick)
    as [| | |store err calls] eqn:E; try (vm_compute in E; discriminate).
  destruct (generate_full_conversation conv3 acctX gen_echo clock_tick store err calls
              eq_refl ltac:(simpl; discriminate) E) as (newM & H1 & _).
  intros c Hc. destruct (H1 1 c Hc) as [Hs _]. rewrite Hs. reflexivity.
Defined.

(** C8 on a created conversation whose minimum is then set to 10. *)
Lemma delay_bounds_ordered_witness :
  match handleCreateConversationWithName "demo" 0 with
  | Some c => (minDelayMinutes (editMinDelay (Some 10) c) <=
               maxDelayMinutes (editMinDelay (Some 10) c))%Q
  | None => False
  end.
Proof.
  destruct (handleCreateConversationWithName "demo" 0) as [c|] eqn:E;
    [|vm_compute in E; discriminate].
  apply (proj1 delay_bounds_ordered).
  apply reach_edit_min. exact (reach_create _ _ _ E).
Defined.

(** ** Countdown display *)

(** X1: [getCountdown] shows nothing without a scheduled time or once the
    time is 5 seconds or more in the past, and ["Sending..."] in the five
    seconds up to and including the scheduled instant. *)
Theorem countdown_edges (now t : Z) :
  getCountdown now None = None /\
  ((t - now <= -5000)%Z -> getCountdown now (Some t) = None) /\
  ((-5000 < t - now <= 0)%Z -> getCountdown now (Some t) = Some "Sending..."%string).
Proof.
  split; [reflexivity|]. split.
  - intros H. unfold getCountdown.
    destruct (Z.leb_spec (t - now) (-5000)); [reflexivity | lia].
  - intros H. unfold getCountdown.
    destruct (Z.leb_spec (t - now) (-5000)); [lia|].
    destruct (Z.leb_spec (t - now) 0); [reflexivity | lia].
Qed.

(** X2: for a scheduled time in the future, [getCountdown] shows
    [minutes] and [seconds] (the minutes only when positive) with
    [0 <= seconds < 60] and [minutes*60000 + seconds*1000] the remaining
    time rounded down to the second. *)
Theorem countdown_format (now t : Z) :
  (0 < t - now)%Z ->
  exists minutes seconds,
    (0 <= minutes)%Z /\ (0 <= seconds < 60)%Z /\
    (minutes * 60000 + seconds * 1000 <= t - now < minutes * 60000 + seconds * 1000 + 1000)%Z /\
    getCountdown now (Some t) =
      Some (if (0 <? minutes)%Z
            then (string_of_Z minutes ++ "m " ++ string_of_Z seconds ++ "s")%string
            else (string_of_Z seconds ++ "s")%string).
Proof.
  intros H. unfold getCountdown.
  destruct (Z.leb_spec (t - now) (-5000)); [lia|].
  destruct (Z.leb_spec (t - now) 0); [lia|].
  set (d := (t - now)%Z) in *.
  exists (d / 60000)%Z, ((d mod 60000) / 1000)%Z.
  pose proof (Z.div_mod d 60000 ltac:(lia)) as E1.
  pose proof (Z.mod_pos_bound d 60000 ltac:(lia)) as B1.
  set (r := (d mod 60000)%Z) in *.
  pose proof (Z.div_mod r 1000 ltac:(lia)) as E2.
  pose proof (Z.mod_pos_bound r 1000 ltac:(lia)) as B2.
  set (q := (d / 60000)%Z) in *. set (s := (r / 1000)%Z) in *.
  set (r' := (r mod 1000)%Z) in *.
  repeat split; try lia; destruct (0 <? q)%Z; reflexivity.
Qed.

(** ** The conversation list *)

(** X3: [updateActiveConversation] without an active id (null or empty)
    leaves the list as it is; with one, it keeps the list's length and
    every conversation with another id. *)
Theorem update_active_frame (aid : option string) (f : Conversation -> Conversation)
  (convs : list Conversation) :
  List.length (updateActiveConversation aid f convs) = List.length convs /\
  (forall id, aid = Some id -> truthy id = false \/ aid = None ->
     updateActiveConversation aid f convs = convs) /\
  (aid = None -> updateActiveConversation aid f convs = convs) /\
  (forall id j c, aid = Some id -> nth_error convs j = Some c -> conv_id c <> id ->
     nth_error (updateActiveConversation aid f convs) j = Some c).
Proof.
  unfold updateActiveConversation. split; [|split; [|split]].
  - destruct aid as [id|]; [destruct (truthy id); [apply length_map|]|]; reflexivity.
  - intros id -> [Ht|Hn]; [rewrite Ht; reflexivity | discriminate].
  - intros ->. reflexivity.
  - intros id j c -> Hj Hne. destruct (truthy id); [|exact Hj].
    rewrite nth_error_map, Hj. simpl.
    destruct (String.eqb_spec (conv_id c) id); [contradiction | reflexivity].
Qed.

(** X4: an updater that keeps the conversation id commutes with reading
    the active conversation: after [updateActiveConversation updater] the
    active conversation is [updater] applied to the one before. *)
Theorem update_active_get (aid : option string) (updater : Conversation -> Conversation)
  (convs : list Conversation) :
  (forall c, conv_id (updater c) = conv_id c) ->
  getActiveConversation aid (updateActiveConversation aid updater convs) =
    option_map updater (getActiveConversation aid convs).
Proof.
  intros Hid. unfold getActiveConversation, updateActiveConversation.
  destruct aid as [id|]; [|reflexivity]. destruct (truthy id); [|reflexivity].
  induction convs as [|c rest IH]; [reflexivity|]. simpl.
  destruct (String.eqb (conv_id c) id) eqn:E; simpl.
  - rewrite Hid, E. reflexivity.
  - rewrite E. exact IH.
Qed.

Lemma existsb_filter_negb {A} (f : A -> bool) (l : list A) :
  existsb f (filter (fun a => negb (f a)) l) = false.
Proof.
  induction l as [|a l IH]; [reflexivity|]. simpl.
  destruct (f a) eqn:E; simpl; [exact IH|]. rewrite E. exact IH.
Qed.

Lemma filter_negb_absent {A} (f : A -> bool) (l : list A) :
  existsb f l = false -> filter (fun a => negb (f a)) l = l.
Proof.
  induction l as [|a l IH]; [reflexivity|]. simpl.
  destruct (f a); simpl; [discriminate|]. intros H. f_equal. exact (IH H).
Qed.

(** X5: [toggleOtherAccount account] flips whether an account with
    [account]'s id is among the other participants. *)
Theorem toggle_other_flips (account : Account) (c : Conversation) :
  existsb (fun a => String.eqb (acc_id a) (acc_id account))
    (otherAccounts (toggleOtherAccount account c)) =
  negb (existsb (fun a => String.eqb (acc_id a) (acc_id account)) (otherAccounts c)).
Proof.
  unfold toggleOtherAccount. simpl.
  destruct (existsb _ (otherAccounts c)) eqn:E; simpl.
  - apply existsb_filter_negb.
  - rewrite existsb_app. simpl. rewrite String.eqb_refl.
    destruct (existsb _ _); reflexivity.
Qed.

(** X6: toggling an account that is not a participant twice gives back
    the original participant list. *)
Theorem toggle_other_twice (account : Account) (c : Conversation) :
  existsb (fun a => String.eqb (acc_id a) (acc_id account)) (otherAccounts c) = false ->
  otherAccounts (toggleOtherAccount account (toggleOtherAccount account c)) = otherAccounts c.
Proof.
  intros H. unfold toggleOtherAccount. simpl. rewrite H.
  rewrite existsb_app, H. simpl. rewrite String.eqb_refl. simpl.
  rewrite filter_app. simpl. rewrite String.eqb_refl. simpl.
  rewrite app_nil_r. apply filter_negb_absent. exact H.
Qed.

(** ** Trimming *)

Lemma list_ascii_of_string_app (a b : string) :
  list_ascii_of_string (a ++ b) = (list_ascii_of_string a ++ list_ascii_of_string b)%list.
Proof. induction a as [|c a IH]; simpl; [reflexivity | now rewrite IH]. Qed.

Lemma string_of_list_ascii_app (a b : list ascii) :
  string_of_list_ascii (a ++ b)%list = (string_of_list_ascii a ++ string_of_list_ascii b)%string.
Proof. induction a as [|c a IH]; simpl; [reflexivity | now rewrite IH]. Qed.

Lemma str_rev_involutive (s : string) : str_rev (str_rev s) = s.
Proof.
  unfold str_rev. rewrite list_ascii_of_string_of_list_ascii, rev_involutive.
  apply string_of_list_ascii_of_string.
Qed.

Lemma str_rev_app (a b : string) : str_rev (a ++ b) = (str_rev b ++ str_rev a)%string.
Proof.
  unfold str_rev. rewrite list_ascii_of_string_app, rev_app_distr.
  apply string_of_list_ascii_app.
Qed.

Lemma trim_start_suffix (s : string) : exists w, s = (w ++ trim_start s)%string.
Proof.
  induction s as [|c s IH]; simpl; [exists ""%string; reflexivity|].
  destruct (is_js_space c).
  - destruct IH as [w Hw]. exists (String c w). simpl. rewrite <- Hw. reflexivity.
  - exists ""%string. reflexivity.
Qed.

Lemma trim_start_head (s : string) :
  match trim_start s with String c _ => is_js_space c = false | EmptyString => True end.
Proof.
  induction s as [|c s IH]; simpl; [exact I|].
  destruct (is_js_space c) eqn:E; [exact IH | exact E].
Qed.

Lemma trim_start_noop (s : string) :
  match s with String c _ => is_js_space c = false | EmptyString => True end ->
  trim_start s = s.
Proof. destruct s as [|c s]; simpl; [reflexivity|]. intros ->. reflexivity. Qed.

Lemma trim_end_head (u : string) :
  match u with String c _ => is_js_space c = false | EmptyString => True end ->
  match str_rev (trim_start (str_rev u)) with
  | String c _ => is_js_space c = false | EmptyString => True end.
Proof.
  intros Hu. destruct (trim_start_suffix (str_rev u)) as [w Hw].
  assert (Eu : u = (str_rev (trim_start (str_rev u)) ++ str_rev w)%string).
  { rewrite <- str_rev_app, <- Hw. symmetry. apply str_rev_involutive. }
  destruct (str_rev (trim_start (str_rev u))) as [|c x]; [exact I|].
  rewrite Eu in Hu. exact Hu.
Qed.

(** [trim] leaves a trimmed string as it is. *)
Lemma trim_idempotent (s : string) : trim (trim s) = trim s.
Proof.
  unfold trim at 2. set (u := trim_start s).
  assert (Hu := trim_start_head s). fold u in Hu.
  set (t := str_rev (trim_start (str_rev u))).
  assert (Ht : trim_start t = t) by (apply trim_start_noop, trim_end_head, Hu).
  unfold trim. rewrite Ht. unfold t. rewrite str_rev_involutive.
  rewrite trim_start_noop by apply trim_start_head. reflexivity.
Qed.

(** X7: [handleRenameConversation] with a blank name (or no id) sets its
    error and leaves the list as it is; otherwise it gives every
    conversation with the id the trimmed name, which is non-empty and has
    no surrounding whitespace, and leaves the others as they are. *)
Theorem rename_conversation (rid : option string) (name : string)
  (convs : list Conversation) :
  (truthy (trim name) = false \/ rid = None ->
   handleRenameConversation rid name convs =
     (Some "Conversation name is required"%string, convs)) /\
  (forall id, rid = Some id -> truthy id = true -> truthy (trim name) = true ->
   exists convs',
     handleRenameConversation rid name convs = (None, convs') /\
     List.length convs' = List.length convs /\
     trim (trim name) = trim name /\
     (forall j c, nth_error convs j = Some c ->
        nth_error convs' j =
          Some (if String.eqb (conv_id c) id then set_name c (trim name) else c))).
Proof.
  split.
  - intros [H| ->]; [|reflexivity]. unfold handleRenameConversation.
    destruct rid as [id|]; [|reflexivity]. rewrite H, andb_false_r. reflexivity.
  - intros id -> Hid Hn. unfold handleRenameConversation. rewrite Hid, Hn. simpl.
    eexists. split; [reflexivity|]. split; [apply length_map|].
    split; [apply trim_idempotent|].
    intros j c Hj. rewrite nth_error_map, Hj. reflexivity.
Qed.

(** X8: deleting a conversation (part_001) removes exactly the
    conversations with its id, keeping the others; if the active id named
    an existing conversation, afterwards it names a remaining one, or is
    null when none remains; if the deleted conversation was the active
    one, the new active id is that of the first remaining conversation, or
    null when none remains; any other active id (or none) is kept. *)
Theorem delete_conversation (d : Conversation) (active : option string)
  (convs : list Conversation) :
  let '(remaining, active') := handleDeleteConversation (Some d) active convs in
  (forall c, In c remaining <-> In c convs /\ conv_id c <> conv_id d) /\
  (getActiveConversation active convs <> None ->
     (remaining = [] -> active' = None) /\
     (remaining <> [] -> exists c, In c remaining /\ active' = Some (conv_id c))) /\
  (active = Some (conv_id d) ->
     active' = match remaining with c :: _ => Some (conv_id c) | [] => None end) /\
  (forall a, active = Some a -> a <> conv_id d -> active' = active) /\
  (active = None -> active' = None).
Proof.
  simpl. split; [|split; [|split; [|split]]].
  - intros c. rewrite filter_In.
    destruct (String.eqb_spec (conv_id c) (conv_id d)); simpl; intuition congruence.
  - intros Hact. unfold getActiveConversation in Hact.
    destruct active as [a|]; [|contradiction].
    destruct (truthy a); [|contradiction].
    destruct (find (fun c => String.eqb (conv_id c) a) convs) as [c0|] eqn:Ef;
      [|contradiction].
    apply find_some in Ef as [Hin Ea]. apply String.eqb_eq in Ea.
    destruct (String.eqb_spec a (conv_id d)) as [Ead|Nad].
    + split; [intros ->; reflexivity|].
      destruct (filter _ convs) as [|c rest]; [contradiction|].
      intros _. exists c. split; [left; reflexivity | reflexivity].
    + assert (Hr : In c0 (filter (fun c => negb (String.eqb (conv_id c) (conv_id d))) convs)).
      { apply filter_In. split; [exact Hin|].
        destruct (String.eqb_spec (conv_id c0) (conv_id d)); [congruence | reflexivity]. }
      split.
      * intros Hnil. rewrite Hnil in Hr. destruct Hr.
      * intros _. exists c0. split; [exact Hr|]. rewrite Ea. reflexivity.
  - intros ->. now rewrite String.eqb_refl.
  - intros a -> Hne. apply String.eqb_neq in Hne. now rewrite Hne.
  - intros ->. reflexivity.
Qed.

(** ** Accounts *)

(** X9: [handleAddAccount] with a blank name or e-mail sets its error and
    leaves the accounts as they are; otherwise it appends one account with
    the trimmed name and e-mail, the clock reading as id, no personality
    when the trimmed personality is empty, and no e-mail configuration. *)
Theorem add_account (now : Z) (name email pers : string) (accounts : list Account) :
  (truthy (trim name) = false \/ truthy (trim email) = false ->
   handleAddAccount now name email pers accounts =
     (Some "Name and email are required"%string, accounts)) /\
  (truthy (trim name) = true -> truthy (trim email) = true ->
   exists a,
     handleAddAccount now name email pers accounts = (None, (accounts ++ [a])%list) /\
     acc_id a = string_of_Z now /\
     acc_name a = trim name /\ trim (acc_name a) = acc_name a /\
     acc_email a = trim email /\ trim (acc_email a) = acc_email a /\
     (personality a = None <-> trim pers = ""%string) /\
     emailConfig a = None).
Proof.
  unfold handleAddAccount. split.
  - intros [H|H]; rewrite H; [reflexivity|]. rewrite orb_true_r. reflexivity.
  - intros Hn He. rewrite Hn, He. simpl. eexists. split; [reflexivity|]. simpl.
    split; [reflexivity|]. split; [reflexivity|]. split; [apply trim_idempotent|].
    split; [reflexivity|]. split; [apply trim_idempotent|]. split; [|reflexivity].
    unfold truthy. destruct (String.eqb_spec (trim pers) ""); simpl; split; congruence.
Qed.

(** X10: a successful [handleEditAccount] keeps every account's id and
    e-mail configuration, leaves the accounts with another id as they are,
    and gives those with the id the trimmed name and e-mail; a failed one
    leaves the accounts as they are. *)
Theorem edit_account (eid : option string) (name email pers : string)
  (accounts : list Account) :
  (truthy (trim name) = false \/ truthy (trim email) = false \/ eid = None ->
   handleEditAccount eid name email pers accounts =
     (Some "Name and email are required"%string, accounts)) /\
  (forall id, eid = Some id -> truthy id = true -> truthy (trim name) = true ->
   truthy (trim email) = true ->
   exists accounts',
     handleEditAccount eid name email pers accounts = (None, accounts') /\
     map acc_id accounts' = map acc_id accounts /\
     map emailConfig accounts' = map emailConfig accounts /\
     (forall j a, nth_error accounts j = Some a -> acc_id a <> id ->
        nth_error accounts' j = Some a) /\
     (forall j a', nth_error accounts' j = Some a' -> acc_id a' = id ->
        acc_name a' = trim name /\ acc_email a' = trim email)).
Proof.
  unfold handleEditAccount. split.
  - intros [H|[H| ->]]; [| |reflexivity]; destruct eid as [id|]; try reflexivity.
    + rewrite H, andb_false_r. reflexivity.
    + rewrite H, andb_false_r. reflexivity.
  - intros id -> Hid Hn He. rewrite Hid, Hn, He. simpl.
    eexists. split; [reflexivity|].
    split; [rewrite map_map; apply map_ext; intros a; destruct (String.eqb _ _); reflexivity|].
    split; [rewrite map_map; apply map_ext; intros a; destruct (String.eqb _ _); reflexivity|].
    split.
    + intros j a Hj Hne. rewrite nth_error_map, Hj. simpl.
      destruct (String.eqb_spec (acc_id a) id); [contradiction | reflexivity].
    + intros j a' Hj Ha'. rewrite nth_error_map in Hj.
      destruct (nth_error accounts j) as [a|]; simpl in Hj; [|discriminate].
      injection Hj as <-.
      destruct (String.eqb_spec (acc_id a) id); [split; reflexivity|]. contradiction.
Qed.

(** ** Sending one message *)

Lemma rev_filter_last {A} (f : A -> bool) (l : list A) (z : A) (r : list A) :
  rev (filter f l) = z :: r ->
  exists k, nth_error l k = Some z /\ f z = true /\
    forall j y, k < j -> nth_error l j = Some y -> f y = false.
Proof.
  revert z r. induction l as [|x l IH] using rev_ind; intros z r H; [discriminate|].
  rewrite filter_app in H. simpl in H.
  destruct (f x) eqn:Ef; simpl in H.
  - rewrite rev_app_distr in H. simpl in H. injection H as <- _.
    exists (List.length l). split; [|split; [exact Ef|]].
    + rewrite nth_error_app2, Nat.sub_diag by lia. reflexivity.
    + intros j y Hj Hy. apply nth_error_snoc in Hy as [[Hlt _]|[Heq _]]; lia.
  - rewrite app_nil_r in H. destruct (IH z r H) as (k & Hk & Hz & Hlater).
    exists k. split; [|split; [exact Hz|]].
    + rewrite nth_error_app1; [exact Hk|]. apply nth_error_Some. congruence.
    + intros j y Hj Hy. apply nth_error_snoc in Hy as [[Hlt Hy]|[_ ->]].
      * exact (Hlater j y Hj Hy).
      * exact Ef.
Qed.

(** X11: the thread parent chosen by [handleSendEmail] is the
    [emailMessageId] of the last message that is marked sent and has a
    non-empty [emailMessageId]; there is none exactly when no message is
    both. *)
Theorem previous_sent_message_id (ms : list Message) :
  (forall id, previousSentMessageId ms = Some id ->
   exists k m, nth_error ms k = Some m /\ sent m = Some true /\
     emailMessageId m = Some id /\ id <> ""%string /\
     forall j m', k < j -> nth_error ms j = Some m' -> sent m' = Some true ->
       opt_truthy (emailMessageId m') = false) /\
  (previousSentMessageId ms = None ->
   forall m, In m ms -> sent m = Some true -> opt_truthy (emailMessageId m) = false).
Proof.
  unfold previousSentMessageId.
  set (f := fun m => match sent m with Some true => opt_truthy (emailMessageId m)
                                 | _ => false end).
  split.
  - intros id Hid. destruct (rev (filter f ms)) as [|z r] eqn:E; [discriminate|].
    destruct (rev_filter_last f ms z r E) as (k & Hk & Hz & Hlater).
    exists k, z. unfold f in Hz.
    destruct (sent z) as [[|]|] eqn:Es; try discriminate.
    rewrite Hid in Hz. simpl in Hz.
    split; [exact Hk|]. split; [reflexivity|]. split; [exact Hid|].
    split; [unfold truthy in Hz; destruct (String.eqb_spec id ""); [discriminate | exact n]|].
    intros j m' Hj Hm' Hs. pose proof (Hlater j m' Hj Hm') as Hf.
    unfold f in Hf. rewrite Hs in Hf. exact Hf.
  - intros Hnone m Hin Hs.
    destruct (rev (filter f ms)) as [|z r] eqn:E.
    + assert (Hf : filter f ms = []).
      { rewrite <- (rev_involutive (filter f ms)), E. reflexivity. }
      destruct (f m) eqn:Em.
      * assert (In m (filter f ms)) by (apply filter_In; split; assumption).
        rewrite Hf in H. destruct H.
      * unfold f in Em. rewrite Hs in Em. exact Em.
    + destruct (rev_filter_last f ms z r E) as (k & _ & Hz & _).
      unfold f in Hz. destruct (sent z) as [[|]|]; try discriminate.
      rewrite Hnone in Hz. discriminate.
Qed.

(** X12: when [handleSendEmail message account] reaches the send, the
    sender is [account] if given and the conversation's selected account
    otherwise (whoever wrote the message), it has an e-mail configuration,
    the recipients are all other participants, the subject is the
    conversation subject and the thread parent is the one of X11; on
    success the message is marked sent with the returned id, on failure
    the conversation is left as it was. *)
Theorem send_email_outcome (conv : Conversation) (message : Message)
  (account : option Account) (dispatch : Dispatch) (store : Conversation)
  (err : option string) (call : SendCall) :
  handleSendEmail (Some conv) message account dispatch = SEDone store err call ->
  (match account with
   | Some a => sc_sender call = a
   | None => selectedAccount conv = Some (sc_sender call)
   end) /\
  emailConfig (sc_sender call) <> None /\
  sc_recipients call = otherAccounts conv /\ otherAccounts conv <> [] /\
  sc_subject call = conversationSubject conv /\
  sc_previousMessageId call = previousSentMessageId (messages conv) /\
  (err = None -> exists mid,
     dispatch 0%nat message (sc_sender call) (sc_recipients call) (sc_subject call)
       (conv_id conv) (sc_previousMessageId call) = SendOk mid /\
     store = markSent (msg_id message) mid conv) /\
  (err <> None ->
     dispatch 0%nat message (sc_sender call) (sc_recipients call) (sc_subject call)
       (conv_id conv) (sc_previousMessageId call) = SendErr /\ store = conv).
Proof.
  unfold handleSendEmail. intros H.
  assert (Hsa : exists sa, match account with Some a => Some a
                           | None => selectedAccount conv end = Some sa)
    by (destruct account, (selectedAccount conv); eauto; discriminate).
  destruct Hsa as [sa Hsa]. rewrite Hsa in H.
  destruct (emailConfig sa) as [ec|] eqn:Ec; [|discriminate].
  destruct (otherAccounts conv) as [|o os] eqn:Eo; [discriminate|].
  destruct (dispatch 0%nat message sa (o :: os) (conversationSubject conv) (conv_id conv)
              (previousSentMessageId (messages conv))) as [mid|] eqn:Ed;
    injection H as <- <- <-; simpl.
  all: split; [destruct account; [injection Hsa as ->|]; auto|].
  all: split; [congruence|]. all: split; [reflexivity|]. all: split; [discriminate|].
  all: split; [reflexivity|]. all: split; [reflexivity|].
  - split; [|intros []; reflexivity]. intros _. exists mid. split; [exact Ed | reflexivity].
  - split; [discriminate|]. intros _. split; [exact Ed | reflexivity].
Qed.

(** X13: [sendEmailInternal]'s subject starts with ["Re: "] whenever there
    is a (non-empty) thread parent, is the conversation subject otherwise,
    and the prefix is never doubled: a subject that already starts with
    ["Re: "] is used as it is, one that does not gets exactly one
    ["Re: "] in front when there is a thread parent, and computing the
    subject again from its result changes nothing. *)
Theorem reply_subject_props (s : string) (prev : option string) :
  (opt_truthy prev = true -> String.prefix "Re: " (replySubject s prev) = true) /\
  (opt_truthy prev = false -> replySubject s prev = s) /\
  (String.prefix "Re: " s = true -> replySubject s prev = s) /\
  (opt_truthy prev = true -> String.prefix "Re: " s = false ->
     replySubject s prev = ("Re: " ++ s)%string) /\
  replySubject (replySubject s prev) prev = replySubject s prev.
Proof.
  unfold replySubject.
  destruct (opt_truthy prev);
    [|split; [discriminate|split; [reflexivity|split; [reflexivity|split; [discriminate|reflexivity]]]]].
  destruct (String.prefix "Re: " s) eqn:E.
  - split; [intros _; exact E|]. split; [discriminate|].
    split; [reflexivity|]. split; [discriminate|]. rewrite E. reflexivity.
  - assert (Hp : String.prefix "Re: " ("Re: " ++ s) = true)
      by (apply String.prefix_correct; destruct s; reflexivity).
    split; [intros _; exact Hp|]. split; [discriminate|].
    split; [discriminate|]. split; [reflexivity|]. rewrite Hp. reflexivity.
Qed.

Lemma replace_newlines_noLF (s : string) :
  forallb (fun c => negb (Ascii.eqb c (ascii_of_nat 10)))
    (list_ascii_of_string (replace_newlines s)) = true.
Proof.
  induction s as [|c s IH]; [reflexivity|]. simpl.
  destruct (Ascii.eqb c (ascii_of_nat 10)) eqn:E; simpl; [exact IH|].
  rewrite E. exact IH.
Qed.

Lemma replace_newlines_id (s : string) :
  forallb (fun c => negb (Ascii.eqb c (ascii_of_nat 10))) (list_ascii_of_string s) = true ->
  replace_newlines s = s.
Proof.
  induction s as [|c s IH]; [reflexivity|]. simpl.
  destruct (Ascii.eqb c (ascii_of_nat 10)); simpl; [discriminate|].
  intros H. rewrite (IH H). reflexivity.
Qed.

(** X14: the html body built by [sendEmailInternal] contains no line
    feed (each one is replaced by [<br>]), and is the content inside
    [<p>...</p>] unchanged when the content has none. *)
Theorem send_request_html (message : Message) (sender : Account)
  (recipients : list Account) (subject cid : string) (prev : option string) :
  exists h,
    b_html (sendEmailRequest message sender recipients subject cid prev) = Some h /\
    forallb (fun c => negb (Ascii.eqb c (ascii_of_nat 10))) (list_ascii_of_string h) = true /\
    (forallb (fun c => negb (Ascii.eqb c (ascii_of_nat 10)))
       (list_ascii_of_string (content message)) = true ->
     h = ("<p>" ++ content message ++ "</p>")%string).
Proof.
  eexists. split; [reflexivity|]. split.
  - rewrite !list_ascii_of_string_app, !forallb_app, replace_newlines_noLF. reflexivity.
  - intros H. rewrite replace_newlines_id by exact H. reflexivity.
Qed.

(** ** The send-email route *)

Ltac in_list := simpl; repeat (first [left; reflexivity | right]).

Lemma smtp_error_status (cfg : RouteConfig) (code : option string) (msg : string) :
  r_status (smtpErrorResponse cfg code msg) <> 400%Z /\
  smtpErrorResponse cfg code msg <>
    mkResponse 503 (Some "Connection timeout. Please check your SMTP host and port settings."%string) None /\
  In (r_status (smtpErrorResponse cfg code msg)) [401; 500; 503]%Z.
Proof.
  unfold smtpErrorResponse.
  destruct (code_is code "EAUTH"); [split; [discriminate | split; [discriminate | in_list]]|].
  destruct (code_is code "ECONNECTION" || code_is code "ETIMEDOUT") eqn:E1;
    [split; [discriminate | split; [discriminate | in_list]]|].
  destruct (code_is code "ENOTFOUND" || includes msg "getaddrinfo ENOTFOUND");
    [split; [discriminate | split; [discriminate | in_list]]|].
  apply orb_false_iff in E1 as [_ ->].
  split; [discriminate | split; [discriminate | in_list]].
Qed.

(** X15: the route answers 400 with the missing-fields error, before any
    DNS lookup or SMTP connection, when [from], [to] or [subject] is empty
    or both [text] and [html] are; and with the incomplete-configuration
    error when the host, user or password is missing or empty or the port
    is missing or 0. *)
Theorem route_validation (body : SendBody) (dns : string -> option string)
  (smtp : TransportOptions -> MailOptions -> SmtpResult) :
  (b_from body = ""%string \/ b_to body = ""%string \/ b_subject body = ""%string \/
   (opt_truthy (b_text body) = false /\ opt_truthy (b_html body) = false) ->
   sendEmailRoute body dns smtp = mkResponse 400 (Some missing_fields_error) None) /\
  (forall cfg,
   truthy (b_from body) = true -> truthy (b_to body) = true ->
   truthy (b_subject body) = true ->
   opt_truthy (b_text body) || opt_truthy (b_html body) = true ->
   b_accountConfig body = Some cfg ->
   opt_truthy (rc_smtpHost cfg) = false \/ opt_truthy (rc_smtpUser cfg) = false \/
   opt_truthy (rc_smtpPassword cfg) = false \/
   match rc_smtpPort cfg with Some p => (p =? 0)%Z | None => true end = true ->
   sendEmailRoute body dns smtp =
     mkResponse 400 (Some "SMTP configuration is incomplete. Host, port, user, and password are required."%string) None).
Proof.
  unfold sendEmailRoute. split.
  - intros [H|[H|[H|[Ht Hh]]]]; [rewrite H | rewrite H | rewrite H | rewrite Ht, Hh];
      simpl; rewrite ?orb_true_r; reflexivity.
  - intros cfg Hf Ht Hs Hth Hc Hbad.
    assert (Hth' : negb (opt_truthy (b_text body)) && negb (opt_truthy (b_html body)) = false)
      by (destruct (opt_truthy (b_text body)), (opt_truthy (b_html body)); easy).
    rewrite Hf, Ht, Hs, Hth', Hc. simpl.
    destruct (rc_smtpHost cfg) as [host|], (rc_smtpPort cfg) as [port|],
      (rc_smtpUser cfg) as [user|], (rc_smtpPassword cfg) as [pass|]; try reflexivity.
    simpl in Hbad.
    destruct Hbad as [H|[H|[H|H]]]; rewrite H; simpl; rewrite ?andb_false_r; reflexivity.
Qed.

(** X16: the route only ever hands the mailer options that use implicit
    TLS on port 465, STARTTLS without implicit TLS on ports 587 and 25,
    and a trimmed host and user: its answer stays the same when the
    mailer is changed on any other options. *)
Theorem route_transport_options (body : SendBody) (dns : string -> option string)
  (smtp smtp' : TransportOptions -> MailOptions -> SmtpResult) :
  (forall o m,
     ((t_port o =? 465)%Z = true -> t_secure o = true) ->
     ((t_port o =? 587)%Z || (t_port o =? 25)%Z = true ->
        t_secure o = false /\ t_requireTLS o = true) ->
     trim (t_host o) = t_host o -> trim (t_user o) = t_user o ->
     smtp o m = smtp' o m) ->
  sendEmailRoute body dns smtp = sendEmailRoute body dns smtp'.
Proof.
  intros Hsame. unfold sendEmailRoute.
  destruct (_ || _ || _ || _); [reflexivity|].
  destruct (b_accountConfig body) as [cfg|]; [|reflexivity].
  destruct (rc_smtpHost cfg) as [host|], (rc_smtpPort cfg) as [port|],
    (rc_smtpUser cfg) as [user|], (rc_smtpPassword cfg) as [pass|]; try reflexivity.
  destruct (_ && _ && _ && _); [|reflexivity].
  destruct (dns (trim host)); [reflexivity|].
  rewrite Hsame; [reflexivity| | | |]; simpl.
  - intros E. unfold useSecurePort. rewrite E. reflexivity.
  - intros E. split; [|exact E]. unfold useSecurePort.
    assert (N : (port =? 465)%Z = false).
    { apply Z.eqb_neq. intros ->. discriminate E. }
    rewrite N, E. reflexivity.
  - apply trim_idempotent.
  - apply trim_idempotent.
Qed.

(** X17: every answer of the route has status 200, 400, 401, 500 or 503,
    and the "Connection timeout" answer of the catch block is never
    given (an [ETIMEDOUT] error is answered as a connection failure). *)
Theorem route_responses (body : SendBody) (dns : string -> option string)
  (smtp : TransportOptions -> MailOptions -> SmtpResult) :
  In (r_status (sendEmailRoute body dns smtp)) [200; 400; 401; 500; 503]%Z /\
  sendEmailRoute body dns smtp <>
    mkResponse 503 (Some "Connection timeout. Please check your SMTP host and port settings."%string) None.
Proof.
  unfold sendEmailRoute.
  destruct (_ || _ || _ || _); [split; [in_list | discriminate]|].
  destruct (b_accountConfig body) as [cfg|]; [|split; [in_list | discriminate]].
  destruct (rc_smtpHost cfg) as [host|], (rc_smtpPort cfg) as [port|],
    (rc_smtpUser cfg) as [user|], (rc_smtpPassword cfg) as [pass|];
    try (split; [in_list | discriminate]).
  destruct (_ && _ && _ && _); [|split; [in_list | discriminate]].
  destruct (dns (trim host)); [split; [in_list | discriminate]|].
  destruct (smtp _ _) as [id|code msg]; [split; [in_list | discriminate]|].
  destruct (smtp_error_status cfg code msg) as (_ & Hn & Hin).
  split; [simpl in Hin |- *; tauto | exact Hn].
Qed.

(** X18: the display name of the [From] header, [from.split('@')[0]], is
    the part of [from] before its first ['@']: a prefix of [from] with no
    ['@'], followed in [from] by an ['@'] or by nothing. *)
Theorem before_at_prefix (s : string) :
  exists rest, s = (before_at s ++ rest)%string /\
    (rest = ""%string \/ exists r', rest = String "@"%char r') /\
    forallb (fun c => negb (Ascii.eqb c "@"%char)) (list_ascii_of_string (before_at s)) = true.
Proof.
  induction s as [|c s IH]; [exists ""%string; auto|]. simpl.
  destruct (Ascii.eqb_spec c "@"%char) as [->|Hne].
  - exists (String "@"%char s). split; [reflexivity|]. split; [right; eauto | reflexivity].
  - destruct IH as (rest & Hs & Hr & Hat). exists rest. simpl.
    split; [rewrite <- Hs; reflexivity|]. split; [exact Hr|].
    apply Ascii.eqb_neq in Hne. rewrite Hne. exact Hat.
Qed.

(** X19: the request body [sendEmailInternal] builds is rejected for
    missing fields exactly when the sender's name, the joined recipient
    addresses or the subject is empty: its html part is never empty, so an
    empty message content does not trigger the check. *)
Theorem send_request_missing_fields (message : Message) (sender : Account)
  (recipients : list Account) (subject cid : string) (prev : option string)
  (dns : string -> option string) (smtp : TransportOptions -> MailOptions -> SmtpResult) :
  sendEmailRoute (sendEmailRequest message sender recipients subject cid prev) dns smtp =
    mkResponse 400 (Some missing_fields_error) None <->
  (acc_name sender = ""%string \/ String.concat ", " (map acc_email recipients) = ""%string \/
   replySubject subject prev = ""%string).
Proof.
  split.
  - intros H.
    destruct (String.eqb_spec (acc_name sender) "") as [|Hn]; [left; assumption|].
    destruct (String.eqb_spec (String.concat ", " (map acc_email recipients)) "") as [|Ht];
      [right; left; assumption|].
    destruct (String.eqb_spec (replySubject subject prev) "") as [|Hs];
      [right; right; assumption|].
    exfalso. unfold sendEmailRoute, sendEmailRequest in H. simpl in H.
    apply String.eqb_neq in Hn, Ht, Hs. unfold truthy in H. rewrite Hn, Ht, Hs in H.
    simpl in H. rewrite andb_false_r in H. simpl in H.
    destruct (emailConfig sender) as [ec|]; simpl in H; [|discriminate].
    destruct (_ && _ && _ && _); [|discriminate].
    destruct (dns _); [discriminate|].
    destruct (smtp _ _) as [id|code msg]; [discriminate|].
    destruct (smtp_error_status (mkRouteConfig (acc_email sender) (Some (smtpHost ec))
                (Some (smtpPort ec)) (Some (smtpUser ec)) (Some (smtpPassword ec))
                (smtpSecure ec)) code msg) as (Hst & _ & _).
    rewrite H in Hst. apply Hst. reflexivity.
  - intros Hc. unfold sendEmailRoute, sendEmailRequest. simpl.
    destruct Hc as [H|[H|H]]; rewrite H; simpl; rewrite ?orb_true_r; reflexivity.
Qed.

(** ** Generation *)

(** X20: when [handleGenerateMessage] runs (a selected sender and at least
    one other participant) it makes exactly one request, for the selected
    account with the other participants and the conversation's messages;
    on success it appends exactly one message, by the selected account,
    with id [now], a content that is not blank and no send state (no
    [sent] flag, no [scheduledSendTime], no [emailMessageId]), and clears
    the prompt; on failure the conversation is left as
    it was. *)
Theorem generate_message_outcome (conv : Conversation) (sel : Account)
  (generate : Generate) (now : Z) (store : Conversation) (err : option string)
  (calls : list GenCall) :
  selectedAccount conv = Some sel -> otherAccounts conv <> [] ->
  handleGenerateMessage (Some conv) generate now = GenRan store err calls ->
  calls = [mkGenCall sel (otherAccounts conv) (messages conv)] /\
  (err = None -> exists m,
     store = set_messages_prompt conv (messages conv ++ [m]) "" /\
     msg_id m = string_of_Z now /\ accountId m = acc_id sel /\
     trim (content m) <> ""%string /\ sent m = None /\
     scheduledSendTime m = None /\ emailMessageId m = None) /\
  (err <> None -> store = conv).
Proof.
  intros Hsel Hothers H. unfold handleGenerateMessage in H. rewrite Hsel in H.
  destruct (otherAccounts conv) as [|o os] eqn:Eo; [contradiction|]. simpl in H.
  destruct (negb (gen_ok _));
    [injection H as <- <- <-; split; [reflexivity | split; [discriminate | auto]]|].
  destruct (gen_message _) as [text|];
    [|injection H as <- <- <-; split; [reflexivity | split; [discriminate | auto]]].
  destruct (String.eqb_spec (trim text) "") as [|Hne];
    [injection H as <- <- <-; split; [reflexivity | split; [discriminate | auto]]|].
  injection H as <- <- <-. split; [reflexivity|]. split; [|intros []; reflexivity].
  intros _. eexists. split; [reflexivity|]. simpl. repeat split; auto.
Qed.

Lemma gen_loop_ids (generate : Generate) (clock : nat -> Z) (conv : Conversation)
  (parts : list Account) :
  forall fuel i hist newM calls err newM' calls',
  List.length newM = i ->
  (forall j m, nth_error newM j = Some m ->
     msg_id m = (string_of_Z (clock j) ++ string_of_nat j)%string) ->
  gen_loop generate clock conv parts i fuel hist newM calls = (err, newM', calls') ->
  List.length newM' <= i + fuel /\
  (forall j m, nth_error newM' j = Some m ->
     msg_id m = (string_of_Z (clock j) ++ string_of_nat j)%string).
Proof.
  induction fuel as [|fuel IH]; intros i hist newM calls err newM' calls' Hn Hm Hrun;
    simpl in Hrun.
  - injection Hrun as <- <- <-. split; [lia | exact Hm].
  - destruct (nth_error parts (i mod List.length parts)) as [a|];
      [|injection Hrun as <- <- <-; split; [lia | exact Hm]].
    destruct (gen_ok _); simpl in Hrun;
      [|injection Hrun as <- <- <-; split; [lia | exact Hm]].
    destruct (gen_message _) as [text|];
      [|injection Hrun as <- <- <-; split; [lia | exact Hm]].
    destruct (String.eqb (trim text) "");
      [injection Hrun as <- <- <-; split; [lia | exact Hm]|].
    apply IH in Hrun as [Hl Hids].
    + split; [lia | exact Hids].
    + rewrite length_app, Hn. simpl. lia.
    + intros j m Hj. apply nth_error_snoc in Hj as [[_ Hj]|[-> ->]].
      * exact (Hm j m Hj).
      * rewrite Hn. reflexivity.
Qed.

Lemma string_app_inv_l (a1 a2 b1 b2 : string) :
  String.length a1 = String.length a2 -> (a1 ++ b1)%string = (a2 ++ b2)%string -> b1 = b2.
Proof.
  revert a2. induction a1 as [|c a1 IH]; intros [|c' a2] Hl He; simpl in *;
    try discriminate; [exact He|].
  injection He as _ He. apply (IH a2); [lia | exact He].
Qed.

Lemma string_of_nat_inj (n n' : nat) : string_of_nat n = string_of_nat n' -> n = n'.
Proof.
  unfold string_of_nat. intros H.
  assert (Hnn : forall k, Nat.to_uint k <> Decimal.Nil).
  { intros k Hk. pose proof (DecimalNat.Unsigned.of_to k) as Hof. rewrite Hk in Hof.
    simpl in Hof. subst k. discriminate Hk. }
  apply DecimalNat.Unsigned.to_uint_inj.
  apply (f_equal NilZero.uint_of_string) in H.
  rewrite !NilZero.usu in H by apply Hnn. injection H as H. exact H.
Qed.

(** X21: the messages generated by a successful
    [handleGenerateFullConversation] have the ids [Date.now()] of their
    iteration followed by the iteration number, and these ids are pairwise
    distinct as long as the clock readings of the run are printed with the
    same number of digits. *)
Theorem generated_ids_distinct (conv : Conversation) (sel : Account)
  (generate : Generate) (clock : nat -> Z) (store : Conversation)
  (calls : list GenCall) :
  selectedAccount conv = Some sel -> otherAccounts conv <> [] ->
  (forall i j, i < Z.to_nat (conversationLength conv) ->
     j < Z.to_nat (conversationLength conv) ->
     String.length (string_of_Z (clock i)) = String.length (string_of_Z (clock j))) ->
  handleGenerateFullConversation (Some conv) generate clock = GenRan store None calls ->
  exists newMessages,
    store = set_messages_prompt conv (messages conv ++ newMessages) "" /\
    (forall j m, nth_error newMessages j = Some m ->
       msg_id m = (string_of_Z (clock j) ++ string_of_nat j)%string) /\
    NoDup (map msg_id newMessages).
Proof.
  intros Hsel Hothers Hclk Hrun.
  unfold handleGenerateFullConversation in Hrun. rewrite Hsel in Hrun.
  destruct (otherAccounts conv) as [|o os] eqn:Eo; [contradiction|].
  destruct (gen_loop generate clock conv (sel :: o :: os) 0
              (Z.to_nat (conversationLength conv)) (messages conv) [] [])
    as [[[e|] newM] cs] eqn:Eloop; [discriminate|].
  injection Hrun as <- _.
  destruct (gen_loop_ids generate clock conv (sel :: o :: os)
              (Z.to_nat (conversationLength conv)) 0 (messages conv) [] [] None newM cs eq_refl
              ltac:(intros [] m Hm; discriminate) Eloop) as [Hlen Hids].
  exists newM. split; [reflexivity|]. split; [exact Hids|].
  apply NoDup_nth_error. intros i j Hi Heq.
  rewrite length_map in Hi. rewrite !nth_error_map in Heq.
  destruct (nth_error newM i) as [mi|] eqn:Ei; [|apply nth_error_None in Ei; lia].
  destruct (nth_error newM j) as [mj|] eqn:Ej; simpl in Heq; [|discriminate].
  injection Heq as Heq. rewrite (Hids i mi Ei), (Hids j mj Ej) in Heq.
  assert (Hj : j < List.length newM) by (apply nth_error_Some; congruence).
  apply string_of_nat_inj. eapply string_app_inv_l; [| exact Heq]. apply Hclk; lia.
Qed.

(** X22: the generate-message route gets to the OpenAI call exactly when
    the account has a name and an e-mail, there is at least one other
    account and the API key is set; a missing name or e-mail is answered
    with 400 before the other checks. *)
Theorem generate_chat_validation (account : Account) (others : list Account)
  (hist : list Message) (prompt : string) (apiKeySet : bool) :
  ((exists chat, generateChat account others hist prompt apiKeySet = inr chat) <->
   truthy (acc_name account) = true /\ truthy (acc_email account) = true /\
   others <> [] /\ apiKeySet = true) /\
  (truthy (acc_name account) = false \/ truthy (acc_email account) = false ->
   generateChat account others hist prompt apiKeySet =
     inl (400%Z, "Invalid account data. Name and email are required."%string)).
Proof.
  unfold generateChat. split.
  - split.
    + intros [chat H].
      destruct (truthy (acc_name account)), (truthy (acc_email account)); simpl in H;
        try discriminate.
      destruct others; [discriminate|]. destruct apiKeySet; [|discriminate].
      repeat split; try reflexivity. discriminate.
    + intros (Hn & He & Ho & Hk). rewrite Hn, He, Hk.
      destruct others; [contradiction|]. simpl. eexists. reflexivity.
  - intros [H|H]; rewrite H; [reflexivity|]. rewrite orb_true_r. reflexivity.
Qed.

Lemma flat_map_historyTurn (account : Account) (hist : list Message) :
  flat_map (historyTurn account) hist =
  map (fun m => if String.eqb (accountId m) (acc_id account)
                then mkChat "assistant" (content m)
                else mkChat "user" ("From " ++ str_or (accountName m) "Unknown" ++ " (" ++
                       str_or (accountEmail m) "unknown" ++ "): " ++ content m)%string)
      (filter (fun m => truthy (content m)) hist).
Proof.
  induction hist as [|m hist IH]; [reflexivity|]. simpl. unfold historyTurn at 1.
  destruct (truthy (content m)); simpl; [|exact IH].
  destruct (String.eqb (accountId m) (acc_id account)); simpl; rewrite IH; reflexivity.
Qed.

(** X23: the chat sent to OpenAI is the system prompt, then one entry per
    history message with a non-empty content, in order (an assistant
    entry with the content itself for the requesting account's own
    messages, a user entry [From name (email): content] for the others),
    then one user entry: the start instruction with the prompt when the
    history is empty, the continue instruction otherwise. *)
Theorem generate_chat_layout (account : Account) (others : list Account)
  (hist : list Message) (prompt : string) (apiKeySet : bool) (chat : list ChatMessage) :
  generateChat account others hist prompt apiKeySet = inr chat ->
  let kept := filter (fun m => truthy (content m)) hist in
  nth_error chat 0 = Some (mkChat "system" (systemPrompt account others prompt)) /\
  List.length chat = 2 + List.length kept /\
  (forall k m, nth_error kept k = Some m ->
     exists cm, nth_error chat (S k) = Some cm /\
       (role cm = "assistant"%string <-> accountId m = acc_id account) /\
       (accountId m = acc_id account -> chat_content cm = content m) /\
       (accountId m <> acc_id account ->
          chat_content cm = ("From " ++ str_or (accountName m) "Unknown" ++ " (" ++
                             str_or (accountEmail m) "unknown" ++ "): " ++ content m)%string)) /\
  (exists last, nth_error chat (S (List.length kept)) = Some last /\
     role last = "user"%string /\
     (hist = [] -> chat_content last = ("Start the conversation. " ++
        str_or prompt "Introduce yourself and begin discussing the topic.")%string) /\
     (hist <> [] ->
        chat_content last = "Continue the conversation naturally based on the context above."%string)).
Proof.
  intros H. cbv zeta. unfold generateChat in H.
  destruct (_ || _); [discriminate|]. destruct others as [|o os]; [discriminate|].
  destruct apiKeySet; simpl in H; [|discriminate]. injection H as <-.
  rewrite flat_map_historyTurn. set (kept := filter (fun m => truthy (content m)) hist).
  split; [reflexivity|]. split.
  - simpl. rewrite length_app, length_map. simpl. lia.
  - split.
    + intros k m Hk. simpl.
      assert (Hlt : k < List.length kept) by (apply nth_error_Some; congruence).
      rewrite nth_error_app1 by (rewrite length_map; exact Hlt).
      rewrite nth_error_map, Hk. simpl. eexists. split; [reflexivity|].
      destruct (String.eqb_spec (accountId m) (acc_id account)) as [E|E]; simpl.
      * split; [split; auto|]. split; [auto|]. intros C; contradiction.
      * split; [split; [discriminate | intros C; contradiction]|].
        split; [intros C; contradiction | auto].
    + simpl. rewrite nth_error_app2 by (rewrite length_map; lia).
      rewrite length_map, Nat.sub_diag. simpl. eexists. split; [reflexivity|].
      destruct hist; simpl; split; auto; split; auto.
      * intros C; contradiction.
      * intros C; discriminate.
Qed.

(** ** Witnesses of the extra properties *)

(** X2 at [now = 0] and a time 61 seconds ahead. *)
Lemma countdown_format_witness :
  exists minutes seconds, (0 <= minutes)%Z /\ (0 <= seconds < 60)%Z /\
    getCountdown 0 (Some 61000%Z) =
      Some (if (0 <? minutes)%Z
            then (string_of_Z minutes ++ "m " ++ string_of_Z seconds ++ "s")
            else (string_of_Z seconds ++ "s")).
Proof.
  destruct (countdown_format 0 61000 ltac:(lia)) as (mi & se & H1 & H2 & _ & H4).
  exists mi, se. split; [exact H1|]. split; [exact H2 | exact H4].
Defined.

(** X4 with the renaming updater on [[convXZ; conv3]]. *)
Lemma update_active_get_witness :
  getActiveConversation (Some "c1")
    (updateActiveConversation (Some "c1") (fun c => set_name c "renamed") [convXZ; conv3]) =
  option_map (fun c => set_name c "renamed") (getActiveConversation (Some "c1") [convXZ; conv3]).
Proof.
  apply (update_active_get (Some "c1") (fun c => set_name c "renamed") [convXZ; conv3]).
  intros c. reflexivity.
Defined.

(** X6: adding and removing [Y] in [convXZ]. *)
Lemma toggle_other_twice_witness :
  otherAccounts (toggleOtherAccount acctY (toggleOtherAccount acctY convXZ)) =
  otherAccounts convXZ.
Proof. apply (toggle_other_twice acctY convXZ). reflexivity. Defined.

(** X12: sending [Z]'s message of [convXZ] from the UI uses [X]. *)
Lemma send_email_outcome_witness :
  match handleSendEmail (Some convXZ) (mkMsg "m2" acctZ None) None dispatch_ok with
  | SEDone store err call => sc_sender call = acctX /\ sc_recipients call = [acctZ]
  | _ => False
  end.
Proof.
  destruct (handleSendEmail (Some convXZ) (mkMsg "m2" acctZ None) None dispatch_ok)
    as [| | |store err call] eqn:E; try (vm_compute in E; discriminate).
  destruct (send_email_outcome convXZ (mkMsg "m2" acctZ None) None dispatch_ok
              store err call E) as (Hs & _ & Hr & _).
  simpl in Hs. injection Hs as Hs. split; [symmetry; exact Hs | exact Hr].
Defined.

(** X16: a mailer that refuses plain connections on port 465 answers the
    route like one that always delivers. *)
Lemma route_transport_options_witness :
  sendEmailRoute sendBody1 dns_ok smtp_strict465 = sendEmailRoute sendBody1 dns_ok smtp_ok.
Proof.
  apply (route_transport_options sendBody1 dns_ok smtp_strict465 smtp_ok).
  intros o m H465 _ _ _. unfold smtp_strict465.
  destruct (t_port o =? 465)%Z eqn:E; simpl; [|reflexivity].
  rewrite (H465 eq_refl). reflexivity.
Defined.

(** X20: one message generated for [convXZ] at time 7. *)
Lemma generate_message_outcome_witness :
  match handleGenerateMessage (Some convXZ) gen_echo 7 with
  | GenRan store None _ => exists m,
      store = set_messages_prompt convXZ (messages convXZ ++ [m])%list "" /\
      accountId m = "x"
  | _ => False
  end.
Proof.
  destruct (handleGenerateMessage (Some convXZ) gen_echo 7) as [| | |store err calls] eqn:E;
    try (vm_compute in E; discriminate).
  assert (Herr : err = None) by (vm_compute in E; congruence). subst err.
  destruct (generate_message_outcome convXZ acctX gen_echo 7 store None calls eq_refl
              ltac:(simpl; discriminate) E) as (_ & Hok & _).
  destruct (Hok eq_refl) as (m & Hs & _ & Ha & _). exists m. split; [exact Hs | exact Ha].
Defined.

(** X21: the six messages generated for [conv3] with a ticking clock. *)
Lemma generated_ids_distinct_witness :
  match handleGenerateFullConversation (Some conv3) gen_echo clock_tick with
  | GenRan store None _ => exists newMessages,
      store = set_messages_prompt conv3 (messages conv3 ++ newMessages)%list "" /\
      NoDup (map msg_id newMessages)
  | _ => False
  end.
Proof.
  destruct (handleGenerateFullConversation (Some conv3) gen_echo clock_tick)
    as [| | |store err calls] eqn:E; try (vm_compute in E; discriminate).
  assert (Herr : err = None) by (vm_compute in E; congruence). subst err.
  assert (Hone : forall i, i < 6 -> String.length (string_of_Z (clock_tick i)) = 1).
  { intros i Hi. do 6 (destruct i as [|i]; [reflexivity|]). lia. }
  destruct (generated_ids_distinct conv3 acctX gen_echo clock_tick store calls eq_refl
              ltac:(simpl; discriminate)
              ltac:(intros i j Hi Hj; simpl in Hi, Hj; rewrite (Hone i Hi), (Hone j Hj);
                    reflexivity) E) as (newM & Hs & _ & Hnd).
  exists newM. split; [exact Hs | exact Hnd].
Defined.

(** X23: [X]'s own message comes back as an assistant entry. *)
Lemma generate_chat_layout_witness :
  exists chat, generateChat acctX [acctY] [mkMsg "m1" acctX None] "" true = inr chat /\
    exists cm, nth_error chat 1 = Some cm /\ role cm = "assistant".
Proof.
  eexists. split; [reflexivity|].
  pose proof (generate_chat_layout acctX [acctY] [mkMsg "m1" acctX None] "" true _ eq_refl)
    as HL.
  cbv zeta in HL. destruct HL as (_ & _ & Hk & _).
  destruct (Hk 0 (mkMsg "m1" acctX None) eq_refl) as (cm & Hcm & [_ Hrole] & _).
  exists cm. split; [exact Hcm | apply Hrole; reflexivity].
Defined.
